(** * Orbit propagation core of [simulator.py]

    A shallow embedding of the [Simulator] class: the atmospheric density
    model, the normalized right-hand side [satellite_dynamics], the
    normalization and re-dimensionalization done by [get_trajectory_ODE],
    the loop of [run] and the forward-Euler update.

    Numbers are real numbers ([R]): numpy's float64 arithmetic is read as
    exact arithmetic.  numpy arrays of rank one are lists of reals, the
    solver's output matrix is a list of rows.  A Python exception is the
    [Raise] outcome of a [result]; objects that Python passes by reference
    (the satellites, the simulator's [sim_data]) live in an explicit
    [World] threaded through a small state-and-error monad.

    Two kinds of numbers meet in the source.  The entries of arrays and
    what numpy computes from them are numpy values: dividing by a numpy
    zero raises nothing (it gives an infinity or a NaN, values the reals
    do not have and the model does not cover).  The satellite's mass,
    the entries of the [constants] dictionary (a dictionary of floats,
    by the docstring) and the value of the density model are Python
    numbers: a division of one Python number by another that is zero
    raises [ZeroDivisionError], and is modelled so. *)

From Stdlib Require Import Reals Lra Lia ZArith List.
From stdpp Require Import base option list gmap.
Import ListNotations.

Open Scope R_scope.

(** ** Python outcomes *)

Inductive exn : Type :=
| IndexError
| ValueError
| ZeroDivisionError
| TypeError.

Inductive result (A : Type) : Type :=
| Ok (a : A)
| Raise (e : exn).

Arguments Ok {A} a.
Arguments Raise {A} e.

Definition rbind {A B : Type} (r : result A) (k : A -> result B) : result B :=
  match r with
  | Ok a => k a
  | Raise e => Raise e
  end.

Notation "x <- r ;; k" := (rbind r (fun x => k))
  (at level 20, r at level 99, k at level 200, only parsing).

(** ** Python numbers

    [x / y] for two Python numbers: a [ZeroDivisionError] when [y] is
    zero. *)
Definition truediv (x y : R) : result R :=
  if Req_dec_T y 0 then Raise ZeroDivisionError else Ok (x / y).

(** ** Rank-one arrays *)

Definition vec : Type := list R.
Definition matrix : Type := list (list R).

(** [np.linalg.norm] of a rank-one array: the Euclidean norm, [0] for the
    empty array. *)
Definition sumsq (v : vec) : R := fold_right (fun x acc => x * x + acc) 0 v.
Definition norm (v : vec) : R := sqrt (sumsq v).

(** [k * v] for a scalar [k]. *)
Definition scale (k : R) (v : vec) : vec := map (fun x => k * x) v.

(** [v * k] for a scalar [k], on a rank-one array and on a matrix. *)
Definition vmul (v : vec) (k : R) : vec := map (fun x => x * k) v.
Definition mmul (m : matrix) (k : R) : matrix := map (fun row => vmul row k) m.

(** [v / k] for a scalar [k]. *)
Definition vdiv (v : vec) (k : R) : vec := map (fun x => x / k) v.

(** [y[lo:hi]] for [0 <= lo <= hi]: Python clamps both ends to the length,
    so the slice of an array that is too short is shorter, or empty. *)
Definition slice {A : Type} (lo hi : nat) (l : list A) : list A :=
  firstn (hi - lo) (skipn lo l).

(** [y[i]]: an [IndexError] out of range. *)
Definition index (v : vec) (i : nat) : result R :=
  match nth_error v i with
  | Some x => Ok x
  | None => Raise IndexError
  end.

(** [a + b] on rank-one arrays with numpy's broadcasting: equal lengths
    add pointwise, an array of length one is stretched, any other pair of
    lengths is a [ValueError]. *)
Fixpoint zip_add (a b : vec) : vec :=
  match a, b with
  | x :: a', y :: b' => (x + y) :: zip_add a' b'
  | _, _ => []
  end.

Definition vadd (a b : vec) : result vec :=
  if Nat.eqb (length a) (length b) then Ok (zip_add a b)
  else match a, b with
       | [x], _ => Ok (map (fun y => x + y) b)
       | _, [y] => Ok (map (fun x => x + y) a)
       | _, _ => Raise ValueError
       end.

(** [np.dot(A, r)] for the 3 x 3 matrix [A] given by its rows: a
    [ValueError] unless [r] has three components. *)
Definition dot3 (A : list (list R)) (r : vec) : result vec :=
  match r with
  | [_; _; _] => Ok (map (fun row => fold_right Rplus 0 (map (fun p => fst p * snd p) (combine row r))) A)
  | _ => Raise ValueError
  end.

(** [y_dot[3:6] = a]: the right-hand side is broadcast to shape [(3,)]. *)
Definition assign3 (a : vec) : result vec :=
  match a with
  | [x] => Ok [x; x; x]
  | [_; _; _] => Ok a
  | _ => Raise ValueError
  end.

(** [np.linspace(start, stop, num)] with the end point included: the [num]
    points [i * step + start], [step = (stop - start) / (num - 1)], which
    for [num = 1] is the one point [start]; a negative [num] is a
    [ValueError]. *)
Definition linspace (start stop : R) (num : Z) : result (list R) :=
  if (num <? 0)%Z then Raise ValueError
  else Ok (map (fun i : nat => INR i * ((stop - start) / (IZR num - 1)) + start)
               (seq 0 (Z.to_nat num))).

(** ** The normalized constants handed to the dynamics

    The dictionary [const] of [get_trajectory_ODE], with its eight keys. *)
Module Const.
Record t : Type := Build {
  MU : R; R_E : R; J2 : R; S : R; G0 : R; ISP : R; R0 : R; RHO : R
}.
End Const.

(** ** The satellite collaborator and the world of objects *)

Record Satellite : Type := mkSatellite {
  id : Z;
  position : vec;
  velocity : vec;
  mass : R;
  thrust : vec
}.

(** A control function: normalized time to a thrust vector. *)
Definition ControlFunction : Type := R -> vec.

Record Controller : Type := mkController {
  get_u_func : ControlFunction
}.

(** What [solve_ivp] returns, as far as the simulator looks at it: the
    attribute [y] of the solution and the [success] flag, which the
    simulator never reads.  [y] is a matrix with one row per state
    component and one column per sample reached; when no sample was
    reached [solve_ivp] leaves [y] the empty Python list, which is the
    empty list of rows here (a matrix has a row for every state
    component, and the state the simulator hands over always has its mass
    component, so a matrix is never without rows). *)
Record OdeResult : Type := mkOdeResult {
  sol_y : matrix;
  sol_success : bool
}.

(** The type of [integrate.solve_ivp(fun, t_span, y0, t_eval, max_step)]. *)
Definition Solver : Type :=
  (R -> vec -> result vec) -> R * R -> vec -> list R -> R -> result OdeResult.

(** [y[0:3, :]] on the attribute [y] of a solution: the first three rows
    of a matrix; on the empty Python list, which cannot be indexed by a
    pair, a [TypeError]. *)
Definition rows_0_3 (y : matrix) : result matrix :=
  match y with
  | [] => Raise TypeError
  | _ :: _ => Ok (slice 0 3 y)
  end.

(** [y[i, j]] where the matrix has such an entry. *)
Definition entry (y : matrix) (i j : nat) : option R :=
  match nth_error y i with
  | Some row => nth_error row j
  | None => None
  end.

(** ** The world of Python objects

    Satellites are objects passed by reference: a [ref] names one, the
    [heap] holds their current fields.  [sim_data] is the attribute of that
    name of the one [Simulator] object. *)

Definition ref : Type := nat.

Record World : Type := mkWorld {
  heap : ref -> Satellite;
  sim_data : gmap Z matrix
}.

(** A computation: it may read and write the world, and ends with a value
    or with an exception; the writes done before an exception stay. *)
Definition M (A : Type) : Type := World -> result A * World.

Definition ret {A : Type} (a : A) : M A := fun w => (Ok a, w).

Definition bind {A B : Type} (m : M A) (k : A -> M B) : M B :=
  fun w => match m w with
           | (Ok a, w') => k a w'
           | (Raise e, w') => (Raise e, w')
           end.

Notation "x <~ m ;; k" := (bind m (fun x => k))
  (at level 20, m at level 99, k at level 200, only parsing).

(** A pure step that may raise. *)
Definition lift {A : Type} (r : result A) : M A := fun w => (r, w).

(** [sat.field] *)
Definition getattr {A : Type} (sat : ref) (field : Satellite -> A) : M A :=
  fun w => (Ok (field (heap w sat)), w).

(** [sat.position = p], [sat.velocity = v], [sat.mass = m] *)
Definition update_heap (sat : ref) (f : Satellite -> Satellite) : M unit :=
  fun w => (Ok tt,
            mkWorld (fun l => if Nat.eqb l sat then f (heap w l) else heap w l)
                    (sim_data w)).

Definition set_position (sat : ref) (p : vec) : M unit :=
  update_heap sat (fun s => mkSatellite (id s) p (velocity s) (mass s) (thrust s)).
Definition set_velocity (sat : ref) (v : vec) : M unit :=
  update_heap sat (fun s => mkSatellite (id s) (position s) v (mass s) (thrust s)).
Definition set_mass (sat : ref) (m : R) : M unit :=
  update_heap sat (fun s => mkSatellite (id s) (position s) (velocity s) m (thrust s)).

(** [self.sim_data = d] *)
Definition set_sim_data (d : gmap Z matrix) : M unit :=
  fun w => (Ok tt, mkWorld (heap w) d).

(** [for x in xs: acc = body(acc, x)] *)
Fixpoint for_each {A B : Type} (xs : list A) (body : B -> A -> M B) (acc : B) : M B :=
  match xs with
  | [] => ret acc
  | x :: xs' => acc' <~ body acc x ;; for_each xs' body acc'
  end.

(** ** Integration in general

    The states an integration of [y' = f(t, y)] from [y0] can reach when
    every update adds a multiple of a value of [f] taken at a state reached
    before: the stages, the steps and the interpolated outputs of any
    explicit Runge-Kutta scheme are of this form. *)
Inductive integrates (f : R -> vec -> result vec) (y0 : vec) : vec -> Prop :=
| integ_start : integrates f y0 y0
| integ_step (y z : vec) (t h : R) (k : vec) :
    integrates f y0 y -> integrates f y0 z -> f t z = Ok k ->
    integrates f y0 (zip_add y (scale h k)).

(** [scipy]'s test on [t_eval]: every point lies between the ends of
    [t_span]. *)
Definition within_span (sp : R * R) (t : R) : Prop :=
  Rmin (fst sp) (snd sp) <= t <= Rmax (fst sp) (snd sp).

Definition within_spanb (sp : R * R) (t : R) : bool :=
  if Rle_dec (Rmin (fst sp) (snd sp)) t
  then if Rle_dec t (Rmax (fst sp) (snd sp)) then true else false
  else false.

(** What the simulator relies on when it takes [sol.y] as the trajectory:
    over a span that is not empty, with sample points asked for and all
    of them within the span, a successful solution has one row per state
    component and one column per requested sample.  Nothing is said of
    the span [[t0, t0]], over which [solve_ivp] reports success without
    having reached any sample. *)
Definition samples_every_point (solve : Solver) : Prop :=
  forall f sp y0 t_eval max_step sol,
    fst sp < snd sp ->
    t_eval <> [] ->
    Forall (within_span sp) t_eval ->
    solve f sp y0 t_eval max_step = Ok sol ->
    sol_success sol = true ->
    length (sol_y sol) = length y0 /\
    Forall (fun row => length row = length t_eval) (sol_y sol).

(** A small solver to run the model on: it checks [t_eval] against
    [t_span] as [scipy] does and evaluates the right-hand side once at
    the start; over the span [[t0, t0]] it then reports success with no
    sample, as [scipy] does; over any other span it samples the straight
    line through the initial state (one explicit Euler step with dense
    output). *)
Definition euler_solve_ivp : Solver := fun f sp y0 t_eval max_step =>
  if forallb (within_spanb sp) t_eval then
    k <- f (fst sp) y0 ;;
    if Nat.eqb (length k) (length y0) then
      if Req_dec_T (fst sp) (snd sp) then Ok (mkOdeResult [] true)
      else
        Ok (mkOdeResult
              (map (fun p => map (fun t => fst p + (t - fst sp) * snd p) t_eval)
                   (combine y0 k))
              true)
    else Raise ValueError
  else Raise ValueError.

(** A solver that gives up at once: it returns the initial state as the
    only sample reached and reports no success, without raising (as
    [solve_ivp] does when its step size collapses). *)
Definition stalled_solve_ivp : Solver := fun f sp y0 t_eval max_step =>
  Ok (mkOdeResult (map (fun yi => [yi]) y0) false).

(** ** The fixed-step path: what it prints and how it ends

    [get_trajectory] prints to the standard output; what it prints is kept
    as a list, oldest line first. *)
Inductive printed : Type :=
| PrintCrashed
| PrintArray (v : vec)
| PrintErrorWith (ts : R)
| PrintNumber (x : R).

(** How [get_trajectory] ends: it returns, or an exception of a step it
    calls leaves it, or its own division [tf / ts] of two Python numbers
    raises the [ZeroDivisionError]. *)
Inductive outcome (A : Type) : Type :=
| Returned (a : A)
| Raised (e : exn)
| RaisedZeroDivisionError.

Arguments Returned {A} a.
Arguments Raised {A} e.
Arguments RaisedZeroDivisionError {A}.

(** [int(x)]: truncation toward zero. *)
Definition py_int (x : R) : Z :=
  if Rle_dec 0 x then Zfloor x else Zceil x.

(** The lines the crash test of [get_trajectory] prints for the rows of a
    position history, for the Earth radius [R_EARTH]. *)
Definition crash_lines (R_EARTH : R) (rows : matrix) : list printed :=
  flat_map (fun row => if Rlt_dec (norm row) R_EARTH
                       then [PrintCrashed; PrintArray row] else []) rows.

(** Position, velocity and thrust with three components each. *)
Definition three_vectors (s : Satellite) : Prop :=
  length (position s) = 3%nat /\ length (velocity s) = 3%nat /\
  length (thrust s) = 3%nat.

(** ** The four accelerations as the specification words them

    For a position [r], a velocity [v], a mass [m] and a thrust [ut], all
    given by their components. *)
Module Spec.






End Spec.

(** ** A scene to run the model on

    The usual SI figures for the names of the [constants] module, the
    low-orbit satellite of the specification's scenario, a satellite whose
    position array has two components only, and one placed a millimetre
    from the centre of the Earth. *)
Module Demo.
Definition MU_EARTH : R := 3.986e14.
Definition R_EARTH : R := 6.378e6.
Definition J2 : R := 1.0826e-3.
Definition SA : R := 1.
Definition G0 : R := 9.80665.
Definition ISP : R := 300.
Definition C_D : R := 2.2.

Definition leo : Satellite := mkSatellite 1 [7000000; 0; 0] [0; 7546; 0] 500 [0; 0; 0].
Definition flat : Satellite := mkSatellite 0 [7000000; 0] [0; 7546; 0] 500 [0; 0; 0].
Definition near_origin : Satellite :=
  mkSatellite 2 [0.001; 0; 0] [0; 7546; 0] 500 [0; 0; 0].

(** The heap: reference 0 is [flat], 1 is [leo], every other one
    [near_origin]. *)
Definition world : World :=
  mkWorld (fun l => match l with
                    | O => flat
                    | 1%nat => leo
                    | _ => near_origin
                    end) ∅.

Definition coast : ControlFunction := fun _ => [0; 0; 0].
Definition burn : ControlFunction := fun _ => [1; 0; 0].
Definition controller : Controller := mkController coast.

(** A satellite under thrust, alone in its world, and a ten-component
    state whose last three components carry a thrust. *)
Definition thruster : Satellite :=
  mkSatellite 3 [7000000; 0; 0] [0; 7546; 0] 500 [0; 1; 0].
Definition thrust_world : World := mkWorld (fun _ => thruster) ∅.
Definition state10 : vec := [1; 0; 0; 0; 1; 0; 1; 3; 4; 0].
Definition unit_consts : Const.t := Const.Build 1 1 0 1 1 1 1 1.
End Demo.

(** ** The simulator *)

Section Simulator.

(** The module [constants] is imported whole ([from constants import *]);
    the simulator uses these seven of its names. *)
Variables (MU_EARTH R_EARTH J2 SA G0 ISP C_D : R).

(** [scipy.integrate.solve_ivp], an external library. *)
Variable solve_ivp : Solver.

(** [Simulator.get_atmo_density(r, r0)]: the altitude is computed and
    dropped, both altitude models are commented out, the value for
    500 km is returned. *)
Definition get_atmo_density (r : vec) (r0 : R) : R :=
  let altitude := norm (vmul r r0) - R_EARTH in
  9.983e-13.

(** [Simulator.satellite_dynamics(tau, y, u, tf, constants)].  [y_dot]
    is built as in the source: positions 0..2 are [v], positions 3..5
    the sum of the four accelerations, position 6 the mass rate, and
    the whole is multiplied by [tf].  The quotient of the density by
    [constants['RHO']] in the drag is the one division of two Python
    numbers here; every other divisor is a numpy value.  (The [RHO] that
    [get_trajectory_ODE] hands over is [m0 / r0^3], zero only for a mass
    of zero, for which [get_trajectory_ODE] has raised before.) *)
Definition satellite_dynamics (tau : R) (y : vec) (u : ControlFunction)
    (tf : R) (constants : Const.t) : result vec :=
  let r := slice 0 3 y in
  let v := slice 3 6 y in
  m <- index y 6 ;;
  let thrust := slice 7 10 y in
  r_z <- index r 2 ;;
  let r_norm := norm r in
  y_dot_0_3 <- assign3 v ;;
  let a_g := scale (- Const.MU constants / r_norm ^ 3) r in
  let A := [ [5 * (r_z / r_norm) ^ 2 - 1; 0; 0];
             [0; 5 * (r_z / r_norm) ^ 2 - 1; 0];
             [0; 0; 5 * (r_z / r_norm) ^ 2 - 3] ] in
  Ar <- dot3 A r ;;
  let a_j2 := scale (1.5 * Const.J2 constants * Const.MU constants
                     * Const.R_E constants ^ 2 / norm r ^ 5) Ar in
  let a_u := vdiv (u tau) m in
  density_ratio <- truediv (get_atmo_density r (Const.R0 constants))
                           (Const.RHO constants) ;;
  let a_d := scale (- 1 / 2 * C_D * Const.S constants * (1 / m)
                    * density_ratio
                    * norm v) v in
  s1 <- vadd a_g a_j2 ;;
  s2 <- vadd s1 a_u ;;
  s3 <- vadd s2 a_d ;;
  y_dot_3_6 <- assign3 s3 ;;
  let y_dot_6 := - norm thrust / (Const.G0 constants * Const.ISP constants) in
  Ok (scale tf (y_dot_0_3 ++ y_dot_3_6 ++ [y_dot_6])).

(** [Simulator.get_trajectory_ODE(self, sat, tf, u)].  The mass entry of
    [y0] is the quotient of two Python numbers, the satellite's mass by
    itself; every other divisor comes from [np.linalg.norm]. *)
Definition get_trajectory_ODE (sat : ref) (tf : Z) (u : ControlFunction) : M matrix :=
  sat_position <~ getattr sat position ;;
  let r0 := norm sat_position in
  let s0 := 2 * PI * sqrt (r0 ^ 3 / MU_EARTH) in
  let v0 := r0 / s0 in
  let a0 := r0 / s0 ^ 2 in
  m0 <~ getattr sat mass ;;
  let T0 := m0 * r0 / s0 ^ 2 in
  let mu0 := r0 ^ 3 / s0 ^ 2 in
  sat_position' <~ getattr sat position ;;
  sat_velocity <~ getattr sat velocity ;;
  sat_mass <~ getattr sat mass ;;
  mass_ratio <~ lift (truediv sat_mass m0) ;;
  let y0 := vdiv sat_position' r0 ++ vdiv sat_velocity v0 ++ [mass_ratio] in
  let const := Const.Build (MU_EARTH / mu0) (R_EARTH / r0) J2 (SA / r0 ^ 2)
                           (G0 / a0) (ISP / s0) r0 (m0 / r0 ^ 3) in
  let resolution := (100 * tf + 1)%Z in
  times <~ lift (linspace 0 1 resolution) ;;
  sol <~ lift (solve_ivp (fun tau y => satellite_dynamics tau y u (IZR tf) const)
                         (0, IZR tf) y0 times 0.001) ;;
  r <~ lift (rows_0_3 (sol_y sol)) ;;
  let pos := mmul r r0 in
  ret pos.

(** [Simulator.run(self, tf)], for a simulator whose [sats] and
    [controller] are the given ones. *)
Definition run (sats : list ref) (controller : Controller) (tf : Z)
    : M (gmap Z matrix) :=
  pos_dict <~ for_each sats (fun pos_dict sat =>
      let u := get_u_func controller in
      curr_pos <~ get_trajectory_ODE sat tf u ;;
      sat_id <~ getattr sat id ;;
      ret (<[sat_id := curr_pos]> pos_dict)) (∅ : gmap Z matrix) ;;
  _ <~ set_sim_data pos_dict ;;
  fun w => (Ok (sim_data w), w).

(** [Simulator.update_satellite_state(sat, time_step)], the forward-Euler
    step of the fixed-step path: it writes the satellite. *)
Definition update_satellite_state (sat : ref) (time_step : R) : M unit :=
  sat_velocity <~ getattr sat velocity ;;
  sat_position <~ getattr sat position ;;
  position_next <~ lift (vadd (vmul sat_velocity time_step) sat_position) ;;
  sat_thrust <~ getattr sat thrust ;;
  sat_mass <~ getattr sat mass ;;
  accel <~ lift (vadd (scale (- (MU_EARTH / norm sat_position ^ 3)) sat_position)
                      (vdiv sat_thrust sat_mass)) ;;
  velocity_next <~ lift (vadd (vmul accel time_step) sat_velocity) ;;
  let mass_dot := norm sat_thrust / G0 * ISP in
  let mass_next := mass_dot * time_step + sat_mass in
  _ <~ set_position sat position_next ;;
  _ <~ set_velocity sat velocity_next ;;
  set_mass sat mass_next.

(** *** The propagation of one satellite, read off a snapshot

    [get_trajectory_ODE] reads the satellite's fields and nothing else of
    the world; these are its lines 109-129 as functions of the fields
    read, and the sample points [times] and the time span [[0, tf]] of its
    call of the solver as functions of [tf].  [y0_of] is the state handed
    to the solver when the division for its mass entry has not raised. *)
Definition resolution (tf : Z) : Z := (100 * tf + 1)%Z.
Definition times (tf : Z) : result (list R) := linspace 0 1 (resolution tf).
Definition span (tf : Z) : R * R := (0, IZR tf).

Definition r0_of (s : Satellite) : R := norm (position s).
Definition s0_of (s : Satellite) : R := 2 * PI * sqrt (r0_of s ^ 3 / MU_EARTH).
Definition v0_of (s : Satellite) : R := r0_of s / s0_of s.
Definition a0_of (s : Satellite) : R := r0_of s / s0_of s ^ 2.
Definition mu0_of (s : Satellite) : R := r0_of s ^ 3 / s0_of s ^ 2.

Definition y0_of (s : Satellite) : vec :=
  vdiv (position s) (r0_of s) ++ vdiv (velocity s) (v0_of s) ++ [mass s / mass s].

Definition const_of (s : Satellite) : Const.t :=
  Const.Build (MU_EARTH / mu0_of s) (R_EARTH / r0_of s) J2 (SA / r0_of s ^ 2)
              (G0 / a0_of s) (ISP / s0_of s) (r0_of s) (mass s / r0_of s ^ 3).

Definition rhs_of (s : Satellite) (tf : Z) (u : ControlFunction)
    : R -> vec -> result vec :=
  fun tau y => satellite_dynamics tau y u (IZR tf) (const_of s).

Definition propagate (s : Satellite) (tf : Z) (u : ControlFunction) : result matrix :=
  _ <- truediv (mass s) (mass s) ;;
  ts <- times tf ;;
  sol <- solve_ivp (rhs_of s tf u) (span tf) (y0_of s) ts 0.001 ;;
  r <- rows_0_3 (sol_y sol) ;;
  Ok (mmul r (r0_of s)).

(** *** Auxiliary views of the dynamics and of the loop *)

(** The sum [a_g + a_j2] of the source for the position [[rx; ry; rz]]. *)
Definition gravity_j2 (c : Const.t) (rx ry rz : R) : vec :=
  let r := [rx; ry; rz] in
  let q := 5 * (rz / norm r) ^ 2 in
  let kg := - Const.MU c / norm r ^ 3 in
  let kj := 1.5 * Const.J2 c * Const.MU c * Const.R_E c ^ 2 / norm r ^ 5 in
  [ kg * rx + kj * ((q - 1) * rx + (0 * ry + (0 * rz + 0)));
    kg * ry + kj * (0 * rx + ((q - 1) * ry + (0 * rz + 0)));
    kg * rz + kj * (0 * rx + (0 * ry + ((q - 3) * rz + 0))) ].

(** The drag [a_d] of the source for the velocity [[vx; vy; vz]]. *)
Definition drag_of (c : Const.t) (m vx vy vz : R) : vec :=
  scale (- 1 / 2 * C_D * Const.S c * (1 / m)
         * (9.983e-13 / Const.RHO c) * norm [vx; vy; vz]) [vx; vy; vz].

(** The dictionary the loop of [run] builds over a heap that does not
    change, or the first exception met. *)
Fixpoint collect (h : ref -> Satellite) (tf : Z) (u : ControlFunction)
    (sats : list ref) (pos_dict : gmap Z matrix) : result (gmap Z matrix) :=
  match sats with
  | [] => Ok pos_dict
  | sat :: rest =>
      curr_pos <- propagate (h sat) tf u ;;
      collect h tf u rest (<[id (h sat) := curr_pos]> pos_dict)
  end.

(** *** The fixed-step path *)

(** The satellite after one forward-Euler step, lines 161-174 on the
    fields of a satellite with three-component arrays. *)
Definition euler_step (time_step : R) (s : Satellite) : Satellite :=
  let position_next := zip_add (vmul (velocity s) time_step) (position s) in
  let accel := zip_add (scale (- (MU_EARTH / norm (position s) ^ 3)) (position s))
                       (vdiv (thrust s) (mass s)) in
  let velocity_next := zip_add (vmul accel time_step) (velocity s) in
  let mass_dot := norm (thrust s) / G0 * ISP in
  let mass_next := mass_dot * time_step + mass s in
  mkSatellite (id s) position_next velocity_next mass_next (thrust s).

(** The loop of [get_trajectory] over the indices [i] left to do:
    [rows] is the array [position], [out] what has been printed.  The row
    tested and printed is the row just stored. *)
Fixpoint get_trajectory_loop (sat : ref) (ts : R) (todo : list nat)
    (rows : matrix) (w : World) (out : list printed)
    : result matrix * World * list printed :=
  match todo with
  | [] => (Ok rows, w, out)
  | i :: todo' =>
      match update_satellite_state sat ts w with
      | (Raise e, w') => (Raise e, w', out)
      | (Ok _, w') =>
          match assign3 (position (heap w' sat)) with
          | Raise e => (Raise e, w', out)
          | Ok row =>
              let rows' := <[i := row]> rows in
              let out' := if Rlt_dec (norm row) R_EARTH
                          then out ++ [PrintCrashed; PrintArray row]
                          else out in
              get_trajectory_loop sat ts todo' rows' w' out'
          end
      end
  end.

(** [Simulator.get_trajectory(self, sat, ts, tf)], the forward-Euler
    propagation: the outcome, the world it leaves and what it printed. *)
Definition get_trajectory (sat : ref) (ts tf : R) (w : World)
    : outcome matrix * World * list printed :=
  if Req_dec_T ts 0 then (RaisedZeroDivisionError, w, [])
  else
    let n := py_int (tf / ts) in
    if (n <? 0)%Z then (Raised ValueError, w, [])
    else
      let rows := repeat [0; 0; 0] (Z.to_nat n) in
      let init := position (heap w sat) in
      match get_trajectory_loop sat ts (seq 0 (Z.to_nat n)) rows w [] with
      | (Raise e, w', out) => (Raised e, w', out)
      | (Ok rows', w', out) =>
          let final := position (heap w' sat) in
          (Returned rows', w',
           out ++ [PrintErrorWith ts; PrintNumber (norm final - norm init)])
      end.

(** *** Basic facts *)

Lemma norm_nil : norm [] = 0.
Proof. unfold norm; simpl. apply sqrt_0. Qed.

Lemma sumsq_nonneg (v : vec) : 0 <= sumsq v.
Proof.
  induction v as [|x v IH]; simpl; [lra|].
  pose proof (Rle_0_sqr x) as Hx. unfold Rsqr in Hx. lra.
Qed.

Lemma norm_nonneg (v : vec) : 0 <= norm v.
Proof. apply sqrt_pos. Qed.

Lemma truediv_nonzero (x y : R) : y <> 0 -> truediv x y = Ok (x / y).
Proof.
  intros H. unfold truediv. destruct (Req_dec_T y 0) as [E|_]; [contradiction|].
  reflexivity.
Qed.

Lemma truediv_zero (x y : R) : y = 0 -> truediv x y = Raise ZeroDivisionError.
Proof.
  intros H. unfold truediv. destruct (Req_dec_T y 0) as [_|N]; [|contradiction].
  reflexivity.
Qed.

Lemma rows_0_3_rows (y : matrix) : y <> [] -> rows_0_3 y = Ok (slice 0 3 y).
Proof. destruct y; [contradiction|reflexivity]. Qed.

Lemma get_trajectory_ODE_snapshot (sat : ref) (tf : Z) (u : ControlFunction) (w : World) :
  get_trajectory_ODE sat tf u w = (propagate (heap w sat) tf u, w).
Proof.
  unfold get_trajectory_ODE, propagate, bind, getattr, lift, ret.
  unfold rhs_of, y0_of, const_of, v0_of, a0_of, mu0_of, s0_of, r0_of.
  unfold times, resolution, span, truediv.
  destruct (Req_dec_T (mass (heap w sat)) 0) as [E|N]; [reflexivity|].
  cbn [rbind].
  destruct (linspace 0 1 (100 * tf + 1)) as [ts|e]; [|reflexivity].
  cbn [rbind].
  match goal with
  | |- context [solve_ivp ?f ?sp ?y ?te ?ms] => destruct (solve_ivp f sp y te ms) as [sol|e]
  end; [|reflexivity].
  cbn [rbind]. destruct (rows_0_3 (sol_y sol)); reflexivity.
Qed.

(** The pipeline once the mass division has not raised. *)
Lemma propagate_nonzero_mass (s : Satellite) (tf : Z) (u : ControlFunction) :
  mass s <> 0 ->
  propagate s tf u =
  (ts <- times tf ;;
   sol <- solve_ivp (rhs_of s tf u) (span tf) (y0_of s) ts 0.001 ;;
   r <- rows_0_3 (sol_y sol) ;;
   Ok (mmul r (r0_of s))).
Proof.
  intros H. unfold propagate. rewrite truediv_nonzero by exact H. reflexivity.
Qed.

(** *** The dynamics on a seven-component state *)

Lemma satellite_dynamics_7_more (tau tf : R) (u : ControlFunction) (c : Const.t)
    (rx ry rz vx vy vz m : R) (rest : vec) :
  satellite_dynamics tau (rx :: ry :: rz :: vx :: vy :: vz :: m :: rest) u tf c =
  (_ <- truediv 9.983e-13 (Const.RHO c) ;;
   s2 <- vadd (gravity_j2 c rx ry rz) (vdiv (u tau) m) ;;
   s3 <- vadd s2 (drag_of c m vx vy vz) ;;
   a <- assign3 s3 ;;
   Ok (scale tf ([vx; vy; vz] ++ a
                 ++ [- norm (slice 7 10 (rx :: ry :: rz :: vx :: vy :: vz :: m :: rest))
                       / (Const.G0 c * Const.ISP c)]))).
Proof.
  unfold satellite_dynamics, get_atmo_density, truediv.
  cbn [index nth_error rbind].
  destruct (Req_dec_T (Const.RHO c) 0) as [E|N]; reflexivity.
Qed.

Lemma satellite_dynamics_7 (tau tf : R) (u : ControlFunction) (c : Const.t)
    (rx ry rz vx vy vz m : R) :
  satellite_dynamics tau [rx; ry; rz; vx; vy; vz; m] u tf c =
  (_ <- truediv 9.983e-13 (Const.RHO c) ;;
   s2 <- vadd (gravity_j2 c rx ry rz) (vdiv (u tau) m) ;;
   s3 <- vadd s2 (drag_of c m vx vy vz) ;;
   a <- assign3 s3 ;;
   Ok (scale tf ([vx; vy; vz] ++ a
                 ++ [- norm [] / (Const.G0 c * Const.ISP c)]))).
Proof. apply satellite_dynamics_7_more. Qed.

(** With a reference density of zero the quotient in the drag raises,
    after the state has been read and before the accelerations are
    added. *)
Lemma satellite_dynamics_zero_rho (tau tf : R) (u : ControlFunction) (c : Const.t)
    (y : vec) :
  (7 <= length y)%nat -> Const.RHO c = 0 ->
  satellite_dynamics tau y u tf c = Raise ZeroDivisionError.
Proof.
  intros Hy H.
  destruct y as [|rx [|ry [|rz [|vx [|vy [|vz [|m rest]]]]]]]; simpl in Hy; try lia.
  rewrite satellite_dynamics_7_more, truediv_zero by exact H. reflexivity.
Qed.


Lemma assign3_length (a b : vec) : assign3 a = Ok b -> length b = 3%nat.
Proof.
  destruct a as [|x1 [|x2 [|x3 [|x4 a]]]]; simpl; intros H;
    inversion H; reflexivity.
Qed.

Lemma satellite_dynamics_7_3 (tau tf : R) (u : ControlFunction) (c : Const.t)
    (rx ry rz vx vy vz m : R) (ut : vec) :
  vdiv (u tau) m = ut -> length ut = 3%nat -> Const.RHO c <> 0 ->
  satellite_dynamics tau [rx; ry; rz; vx; vy; vz; m] u tf c =
  Ok (scale tf ([vx; vy; vz]
                ++ zip_add (zip_add (gravity_j2 c rx ry rz) ut) (drag_of c m vx vy vz)
                ++ [- norm [] / (Const.G0 c * Const.ISP c)])).
Proof.
  intros Hu Hlen Hrho.
  rewrite satellite_dynamics_7, truediv_nonzero by exact Hrho.
  cbn [rbind]. rewrite Hu.
  destruct ut as [|u1 [|u2 [|u3 [|u4 ut]]]]; try discriminate Hlen.
  reflexivity.
Qed.

(** Whatever the control function returns, the last component of a
    returned derivative is zero: the thrust of the mass equation is the
    empty slice [y[7:10]]. *)
Lemma satellite_dynamics_mass_rate (tau tf : R) (u : ControlFunction) (c : Const.t)
    (y ydot : vec) :
  length y = 7%nat ->
  satellite_dynamics tau y u tf c = Ok ydot ->
  length ydot = 7%nat /\ nth_error ydot 6 = Some 0.
Proof.
  intros Hlen H.
  destruct y as [|rx [|ry [|rz [|vx [|vy [|vz [|m [|x y]]]]]]]]; try discriminate Hlen.
  rewrite satellite_dynamics_7 in H. unfold rbind in H.
  destruct (truediv _ _) as [q|e]; [|discriminate H].
  destruct (vadd _ (vdiv (u tau) m)) as [s2|e]; [|discriminate H].
  destruct (vadd s2 _) as [s3|e]; [|discriminate H].
  destruct (assign3 s3) as [a|e] eqn:Ha; [|discriminate H].
  apply assign3_length in Ha.
  destruct a as [|a1 [|a2 [|a3 [|a4 a]]]]; try discriminate Ha.
  inversion H; subst ydot; clear H. split; [reflexivity|].
  simpl. f_equal. rewrite norm_nil. unfold Rdiv.
  rewrite Ropp_0, Rmult_0_l. apply Rmult_0_r.
Qed.

Lemma zip_add_nth6 (y k : vec) (m h : R) :
  length y = 7%nat -> length k = 7%nat ->
  nth_error y 6 = Some m -> nth_error k 6 = Some 0 ->
  length (zip_add y (scale h k)) = 7%nat /\
  nth_error (zip_add y (scale h k)) 6 = Some m.
Proof.
  intros Hy Hk Hm H0.
  destruct y as [|y0 [|y1 [|y2 [|y3 [|y4 [|y5 [|y6 [|x y]]]]]]]]; try discriminate Hy.
  destruct k as [|k0 [|k1 [|k2 [|k3 [|k4 [|k5 [|k6 [|x k]]]]]]]]; try discriminate Hk.
  simpl in *. inversion Hm; inversion H0; subst. split; [reflexivity|].
  f_equal. ring.
Qed.

(** The mass component is an invariant of every integration of the
    dynamics. *)
Lemma integrates_mass (f : R -> vec -> result vec) (y0 y : vec) (m : R) :
  (forall t z k, length z = 7%nat -> f t z = Ok k ->
                 length k = 7%nat /\ nth_error k 6 = Some 0) ->
  length y0 = 7%nat -> nth_error y0 6 = Some m ->
  integrates f y0 y ->
  length y = 7%nat /\ nth_error y 6 = Some m.
Proof.
  intros Hf Hlen Hm Hint.
  induction Hint as [|y z t h k Hy IHy Hz IHz Hk].
  - split; assumption.
  - destruct IHy as [Ly My]. destruct IHz as [Lz _].
    destruct (Hf t z k Lz Hk) as [Lk Mk].
    apply zip_add_nth6; assumption.
Qed.

(** *** The claims on the density model and the dynamics *)

(** C6.  The density model returns the one constant 9.983E-13 for every
    position and reference radius, inside or outside the validated
    altitude band: its output does not depend on its arguments. *)
Theorem get_atmo_density_constant (r r' : vec) (r0 r0' : R) :
  get_atmo_density r r0 = 9.983e-13 /\
  get_atmo_density r r0 = get_atmo_density r' r0'.
Proof. split; reflexivity. Qed.


(** C10.  For a satellite with nonzero mass the mass component of the
    normalized initial state is exactly 1; on a seven-component state the
    dynamics returns a mass derivative of exactly 0, for every control
    function (and it does return, for a three-component thrust and a
    reference density that is not zero); so the mass component is 1 in
    every state an integration of the dynamics reaches. *)
Theorem normalized_mass_stays_one (s : Satellite) (tf : Z) (u : ControlFunction) :
  mass s <> 0 -> length (position s) = 3%nat -> length (velocity s) = 3%nat ->
  nth_error (y0_of s) 6 = Some 1 /\
  (forall tau y tf' c ydot,
      length y = 7%nat -> satellite_dynamics tau y u tf' c = Ok ydot ->
      nth_error ydot 6 = Some 0) /\
  (forall tau y tf' c,
      length y = 7%nat -> length (u tau) = 3%nat -> Const.RHO c <> 0 ->
      exists ydot, satellite_dynamics tau y u tf' c = Ok ydot) /\
  (forall y, integrates (rhs_of s tf u) (y0_of s) y -> nth_error y 6 = Some 1).
Proof.
  intros Hm Hp Hv.
  assert (H0 : length (y0_of s) = 7%nat /\ nth_error (y0_of s) 6 = Some 1).
  { unfold y0_of, vdiv.
    destruct (position s) as [|p1 [|p2 [|p3 [|p4 p]]]]; try discriminate Hp.
    destruct (velocity s) as [|v1 [|v2 [|v3 [|v4 v]]]]; try discriminate Hv.
    simpl. split; [reflexivity|]. f_equal. field. exact Hm. }
  destruct H0 as [L0 M0].
  split; [exact M0|]. split; [|split].
  - intros tau y tf' c ydot Hy H.
    exact (proj2 (satellite_dynamics_mass_rate tau tf' u c y ydot Hy H)).
  - intros tau y tf' c Hy Hu Hrho.
    destruct y as [|rx [|ry [|rz [|vx [|vy [|vz [|m [|x y]]]]]]]]; try discriminate Hy.
    eexists. apply (satellite_dynamics_7_3 _ _ _ _ _ _ _ _ _ _ _ (vdiv (u tau) m));
      [reflexivity| |exact Hrho].
    unfold vdiv. rewrite length_map. exact Hu.
  - intros y Hy.
    refine (proj2 (integrates_mass (rhs_of s tf u) (y0_of s) y 1 _ L0 M0 Hy)).
    intros t z k Hz Hk. unfold rhs_of in Hk.
    exact (satellite_dynamics_mass_rate t (IZR tf) u (const_of s) z k Hz Hk).
Qed.

(** C1.  The claim wants the mass derivative to be [-|u(tau)|/(G0*ISP)]
    times [tf].  On the state [[1;0;0; 0;1;0; 1]] with the constant
    thrust [[1;0;0]], [tf = 1] and [G0 = ISP = 1] that value is [-1];
    the dynamics returns [0] there. *)
Theorem satellite_dynamics_mass_rate_ignores_control :
  let u : ControlFunction := fun _ => [1; 0; 0] in
  let c := Const.Build 1 1 0 1 1 1 1 1 in
  let y := [1; 0; 0; 0; 1; 0; 1] in
  (exists ydot, satellite_dynamics 0 y u 1 c = Ok ydot /\
                nth_error ydot 6 = Some 0) /\
  1 * (- norm (u 0) / (Const.G0 c * Const.ISP c)) = -1 /\
  norm (u 0) <> 0.
Proof.
  intros u c y.
  assert (Hn : norm (u 0) = 1).
  { unfold norm, u; simpl.
    replace (1 * 1 + (0 * 0 + (0 * 0 + 0))) with 1 by ring. apply sqrt_1. }
  split; [|split].
  - unfold y.
    rewrite (satellite_dynamics_7_3 0 1 u c 1 0 0 0 1 0 1 (vdiv (u 0) 1));
      [|reflexivity|reflexivity|simpl; lra].
    eexists; split; [reflexivity|].
    simpl. f_equal. rewrite norm_nil. unfold Rdiv.
    rewrite Ropp_0, Rmult_0_l. apply Rmult_0_r.
  - rewrite Hn. simpl. field.
  - rewrite Hn. lra.
Qed.

(** *** The sample points and the time span *)

Lemma linspace_unit_point (n : Z) (i : nat) :
  (1 <= n)%Z -> (Z.of_nat i <= n)%Z ->
  0 <= INR i * ((1 - 0) / (IZR (n + 1) - 1)) + 0 <= 1.
Proof.
  intros Hn Hi.
  assert (Hd : 1 <= IZR n) by (apply IZR_le in Hn; exact Hn).
  assert (Hi' : INR i <= IZR n) by (rewrite INR_IZR_INZ; apply IZR_le; exact Hi).
  pose proof (pos_INR i) as Hi0.
  rewrite plus_IZR.
  replace (IZR n + 1 - 1) with (IZR n) by ring.
  replace ((1 - 0) / IZR n) with (/ IZR n) by (unfold Rdiv; ring).
  assert (Hx : 0 < / IZR n) by (apply Rinv_0_lt_compat; lra).
  assert (Hdx : IZR n * / IZR n = 1) by (apply Rinv_r; lra).
  split; nra.
Qed.

Lemma times_spec (tf : Z) :
  match times tf with
  | Ok ts =>
      (0 <= tf)%Z /\
      ts = map (fun i : nat => INR i * (1 / (100 * IZR tf))) (seq 0 (Z.to_nat (100 * tf + 1))) /\
      Z.of_nat (length ts) = (100 * tf + 1)%Z /\
      Forall (fun t => 0 <= t <= 1) ts /\
      Forall (within_span (span tf)) ts
  | Raise e => (tf < 0)%Z /\ e = ValueError
  end.
Proof.
  unfold times, linspace, resolution.
  destruct (Z.ltb_spec (100 * tf + 1) 0) as [Hneg|Hpos].
  - split; [lia|reflexivity].
  - assert (Htf : (0 <= tf)%Z) by lia.
    split; [exact Htf|].
    split.
    { apply map_ext. intros i. rewrite plus_IZR, mult_IZR.
      replace (IZR 100 * IZR tf + 1 - 1) with (100 * IZR tf) by ring.
      replace (1 - 0) with 1 by ring. ring. }
    split; [rewrite length_map, length_seq; lia|].
    assert (Hunit : forall i : nat, (i < Z.to_nat (100 * tf + 1))%nat ->
              0 <= INR i * ((1 - 0) / (IZR (100 * tf + 1) - 1)) + 0 <= 1
              /\ (tf = 0%Z -> INR i * ((1 - 0) / (IZR (100 * tf + 1) - 1)) + 0 = 0)).
    { intros i Hi. destruct (Z.eq_dec tf 0%Z) as [->|Hnz].
      - replace i with 0%nat by (simpl in Hi; lia). simpl INR.
        split; [|intros _]; rewrite Rmult_0_l, Rplus_0_r; lra.
      - split; [|intros ->; lia].
        apply linspace_unit_point; lia. }
    split; apply List.Forall_forall; intros t Hin;
      apply in_map_iff in Hin as [i [<- Hi]]; apply in_seq in Hi;
      destruct (Hunit i ltac:(lia)) as [Hu H0]; [exact Hu|].
    unfold within_span, span; simpl fst; simpl snd.
    assert (Hz : 0 <= IZR tf) by (apply IZR_le in Htf; exact Htf).
    rewrite Rmin_left, Rmax_right by exact Hz.
    destruct (Z.eq_dec tf 0%Z) as [->|Hnz].
    + rewrite (H0 eq_refl). lra.
    + assert (1 <= IZR tf) by (apply (IZR_le 1); lia). lra.
Qed.

Lemma within_spanb_true (sp : R * R) (t : R) :
  within_span sp t -> within_spanb sp t = true.
Proof.
  intros [H1 H2]. unfold within_spanb.
  destruct (Rle_dec _ t) as [_|N]; [|contradiction].
  destruct (Rle_dec t _) as [_|N]; [reflexivity|contradiction].
Qed.

Lemma forallb_within_span (sp : R * R) (ts : list R) :
  Forall (within_span sp) ts -> forallb (within_spanb sp) ts = true.
Proof.
  induction 1 as [|t ts Ht _ IH]; simpl; [reflexivity|].
  rewrite (within_spanb_true _ _ Ht). exact IH.
Qed.

(** C3 (amended).  The span handed to the solver is [[0, tf]] and the
    sample points are the [100 tf + 1] equally spaced points of [[0, 1]];
    every sample point lies within the span for every [tf >= 0], the
    single point [0] in the span [[0, 0]] for [tf = 0] included; for a
    negative [tf] the sample count is refused with a [ValueError] and the
    solver is never called.  (Before the sample points are built the
    mass entry of the state is divided out, which raises for a mass of
    zero; after the solver has returned its rows are taken, which raises
    when it has returned none.) *)
Theorem sample_points_within_span (tf : Z) :
  match times tf with
  | Ok ts =>
      (0 <= tf)%Z /\
      ts = map (fun i : nat => INR i * (1 / (100 * IZR tf))) (seq 0 (Z.to_nat (100 * tf + 1))) /\
      Z.of_nat (length ts) = (100 * tf + 1)%Z /\
      Forall (fun t => 0 <= t <= 1) ts /\
      Forall (within_span (span tf)) ts /\
      forall sat u w,
        get_trajectory_ODE sat tf u w =
        (_ <- truediv (mass (heap w sat)) (mass (heap w sat)) ;;
         sol <- solve_ivp (rhs_of (heap w sat) tf u) (span tf)
                          (y0_of (heap w sat)) ts 0.001 ;;
         r <- rows_0_3 (sol_y sol) ;;
         Ok (mmul r (r0_of (heap w sat))),
         w)
  | Raise e =>
      (tf < 0)%Z /\ e = ValueError /\
      forall sat u w,
        get_trajectory_ODE sat tf u w =
        (_ <- truediv (mass (heap w sat)) (mass (heap w sat)) ;;
         Raise ValueError, w)
  end.
Proof.
  pose proof (times_spec tf) as H.
  destruct (times tf) as [ts|e] eqn:E.
  - destruct H as (H0 & H1 & H2 & H3 & H4). repeat (split; [assumption|]).
    intros sat u w. rewrite get_trajectory_ODE_snapshot.
    unfold propagate. rewrite E. reflexivity.
  - destruct H as [H0 ->]. repeat (split; [assumption || reflexivity|]).
    intros sat u w. rewrite get_trajectory_ODE_snapshot.
    unfold propagate. rewrite E. reflexivity.
Qed.

(** *** The trajectory of one satellite *)

Lemma y0_of_length (s : Satellite) :
  length (position s) = 3%nat -> length (velocity s) = 3%nat ->
  length (y0_of s) = 7%nat.
Proof.
  intros Hp Hv. unfold y0_of, vdiv.
  rewrite !length_app, !length_map, Hp, Hv. reflexivity.
Qed.

(** C4 (amended).  For every orbit count [tf >= 1] and a satellite of
    nonzero mass with three-component position and velocity: when the
    solver succeeds (and returns, as a successful [solve_ivp] does over a
    span that is not empty, one row per state component and one column
    per requested sample), the trajectory returned for the satellite is a
    3 x (100 tf + 1) position history. *)
Theorem trajectory_sample_count (sat : ref) (tf : Z) (u : ControlFunction)
    (w : World) (ts : list R) (sol : OdeResult) :
  samples_every_point solve_ivp ->
  (1 <= tf)%Z ->
  mass (heap w sat) <> 0 ->
  length (position (heap w sat)) = 3%nat ->
  length (velocity (heap w sat)) = 3%nat ->
  times tf = Ok ts ->
  solve_ivp (rhs_of (heap w sat) tf u) (span tf) (y0_of (heap w sat)) ts 0.001
    = Ok sol ->
  sol_success sol = true ->
  exists pos : matrix,
    get_trajectory_ODE sat tf u w = (Ok pos, w) /\
    length pos = 3%nat /\
    Forall (fun row => Z.of_nat (length row) = (100 * tf + 1)%Z) pos.
Proof.
  intros Hsolver Htf Hm Hp Hv Hts Hsol Hok.
  pose proof (times_spec tf) as Hspec. rewrite Hts in Hspec.
  destruct Hspec as (_ & _ & Hlen & _ & Hwithin).
  assert (Hspan : fst (span tf) < snd (span tf)).
  { unfold span; simpl. apply (IZR_lt 0). lia. }
  assert (Hne : ts <> []).
  { intros ->. simpl in Hlen. lia. }
  destruct (Hsolver _ _ _ _ _ _ Hspan Hne Hwithin Hsol Hok) as [Hrows Hcols].
  rewrite (y0_of_length _ Hp Hv) in Hrows.
  destruct (sol_y sol) as [|r1 [|r2 [|r3 [|r4 [|r5 [|r6 [|r7 [|r8 rows]]]]]]]] eqn:Ey;
    try discriminate Hrows.
  eexists. split.
  - rewrite get_trajectory_ODE_snapshot, propagate_nonzero_mass by exact Hm.
    rewrite Hts. cbn [rbind]. rewrite Hsol. cbn [rbind]. rewrite Ey. reflexivity.
  - split; [reflexivity|].
    inversion Hcols as [|? ? H1 Hc1]; subst.
    inversion Hc1 as [|? ? H2 Hc2]; subst.
    inversion Hc2 as [|? ? H3 _]; subst.
    unfold mmul, vmul. simpl.
    repeat (constructor; [rewrite length_map; congruence|]). constructor.
Qed.

Lemma scales_positive (s : Satellite) :
  0 < MU_EARTH -> norm (position s) <> 0 ->
  0 < r0_of s /\ 0 < s0_of s /\ 0 < v0_of s.
Proof.
  intros Hmu Hr.
  assert (H0 : 0 < r0_of s).
  { unfold r0_of. pose proof (norm_nonneg (position s)). lra. }
  assert (Hs : 0 < s0_of s).
  { unfold s0_of. apply Rmult_lt_0_compat.
    - pose proof PI_RGT_0. lra.
    - apply sqrt_lt_R0. apply Rdiv_lt_0_compat; [|exact Hmu].
      apply pow_lt. exact H0. }
  repeat split; try assumption.
  unfold v0_of. apply Rdiv_lt_0_compat; assumption.
Qed.

Lemma entry_first_rows_times (rows : matrix) (k : R) (i j : nat) :
  entry (mmul (slice 0 3 rows) k) i j =
  if (i <? 3)%nat then option_map (fun x => x * k) (entry rows i j) else None.
Proof.
  unfold entry, mmul, vmul, slice.
  destruct rows as [|r1 [|r2 [|r3 rows]]];
    destruct i as [|[|[|i]]];
    cbn [Nat.sub skipn firstn map nth_error Nat.ltb Nat.leb];
    try reflexivity;
    try (rewrite nth_error_map;
         match goal with
         | |- context [nth_error ?r j] => destruct (nth_error r j); reflexivity
         end);
    try (destruct i; reflexivity).
Qed.

(** C5.  With a nonzero position norm and a nonzero mass (and the
    positive gravitational parameter), multiplying the normalized initial
    position by [r0] and the normalized initial velocity by
    [v0 = r0 / s0], [s0 = 2 pi sqrt (r0^3 / MU_EARTH)], gives back the
    satellite's position and velocity; and every entry of a trajectory
    returned is [r0] times the entry of the solver's position rows at the
    same place, the trajectory having no other entries. *)
Theorem normalization_round_trip (s : Satellite) :
  0 < MU_EARTH -> norm (position s) <> 0 -> mass s <> 0 ->
  length (position s) = 3%nat -> length (velocity s) = 3%nat ->
  let r0 := norm (position s) in
  let s0 := 2 * PI * sqrt (r0 ^ 3 / MU_EARTH) in
  let v0 := r0 / s0 in
  vmul (slice 0 3 (y0_of s)) r0 = position s /\
  vmul (slice 3 6 (y0_of s)) v0 = velocity s /\
  forall sat tf u w pos,
    heap w sat = s ->
    get_trajectory_ODE sat tf u w = (Ok pos, w) ->
    exists ts sol,
      times tf = Ok ts /\
      solve_ivp (rhs_of s tf u) (span tf) (y0_of s) ts 0.001 = Ok sol /\
      forall i j,
        entry pos i j =
        if (i <? 3)%nat
        then option_map (fun x => x * r0) (entry (sol_y sol) i j)
        else None.
Proof.
  intros Hmu Hr Hm Hp Hv r0 s0 v0.
  destruct (scales_positive s Hmu Hr) as (Hr0 & Hs0 & Hv0).
  change r0 with (r0_of s). change v0 with (v0_of s).
  assert (Hlast : forall sat tf u w pos,
    heap w sat = s ->
    get_trajectory_ODE sat tf u w = (Ok pos, w) ->
    exists ts sol,
      times tf = Ok ts /\
      solve_ivp (rhs_of s tf u) (span tf) (y0_of s) ts 0.001 = Ok sol /\
      forall i j,
        entry pos i j =
        if (i <? 3)%nat
        then option_map (fun x => x * r0_of s) (entry (sol_y sol) i j)
        else None).
  { intros sat tf u w pos Hs H.
    rewrite get_trajectory_ODE_snapshot, Hs in H.
    rewrite propagate_nonzero_mass in H by exact Hm.
    destruct (times tf) as [ts|e]; [|discriminate H].
    cbn [rbind] in H.
    destruct (solve_ivp _ _ _ ts 0.001) as [sol|e] eqn:E; [|discriminate H].
    cbn [rbind] in H.
    destruct (sol_y sol) as [|row rows] eqn:Ey; [discriminate H|].
    cbn [rows_0_3 rbind] in H.
    exists ts, sol. split; [reflexivity|]. split; [exact E|].
    intros i j. rewrite Ey.
    assert (Hpos : pos = mmul (slice 0 3 (row :: rows)) (r0_of s)) by congruence.
    rewrite Hpos. apply entry_first_rows_times. }
  split; [|split; [|exact Hlast]]; clear Hlast; unfold y0_of, vdiv, vmul.
  - destruct (position s) as [|p1 [|p2 [|p3 [|p4 p]]]]; try discriminate Hp.
    simpl. repeat (apply f_equal2; [field; lra|]). reflexivity.
  - destruct (position s) as [|p1 [|p2 [|p3 [|p4 p]]]] eqn:Ep; try discriminate Hp.
    destruct (velocity s) as [|v1 [|v2 [|v3 [|v4 v]]]]; try discriminate Hv.
    simpl. repeat (apply f_equal2; [field; lra|]). reflexivity.
Qed.

(** C9.  Running the adaptive pipeline for a satellite leaves the world,
    and so every field of every satellite, as it was; its outcome is a
    function of the satellite's fields as they are on entry. *)
Theorem get_trajectory_ODE_frame (sat : ref) (tf : Z) (u : ControlFunction)
    (w : World) :
  let w' := snd (get_trajectory_ODE sat tf u w) in
  w' = w /\
  id (heap w' sat) = id (heap w sat) /\
  position (heap w' sat) = position (heap w sat) /\
  velocity (heap w' sat) = velocity (heap w sat) /\
  mass (heap w' sat) = mass (heap w sat) /\
  thrust (heap w' sat) = thrust (heap w sat) /\
  fst (get_trajectory_ODE sat tf u w) = propagate (heap w sat) tf u.
Proof.
  rewrite get_trajectory_ODE_snapshot. simpl. repeat split; reflexivity.
Qed.

(** *** The loop of [run] *)

Lemma for_each_collect (c : Controller) (tf : Z) (sats : list ref)
    (acc : gmap Z matrix) (w : World) :
  for_each sats (fun pos_dict sat =>
      let u := get_u_func c in
      curr_pos <~ get_trajectory_ODE sat tf u ;;
      sat_id <~ getattr sat id ;;
      ret (<[sat_id := curr_pos]> pos_dict)) acc w
  = (collect (heap w) tf (get_u_func c) sats acc, w).
Proof.
  revert acc. induction sats as [|sat rest IH]; intros acc; simpl.
  - reflexivity.
  - unfold bind at 1. unfold bind at 1.
    rewrite get_trajectory_ODE_snapshot.
    destruct (propagate (heap w sat) tf (get_u_func c)) as [p|e]; simpl.
    + apply IH.
    + reflexivity.
Qed.

Lemma run_collect (sats : list ref) (c : Controller) (tf : Z) (w : World) :
  run sats c tf w =
  match collect (heap w) tf (get_u_func c) sats ∅ with
  | Ok d => (Ok d, mkWorld (heap w) d)
  | Raise e => (Raise e, w)
  end.
Proof.
  unfold run. unfold bind at 1. rewrite for_each_collect.
  destruct (collect _ _ _ _ _); reflexivity.
Qed.

Lemma collect_first_failure (h : ref -> Satellite) (tf : Z) (u : ControlFunction)
    (pre post : list ref) (sat : ref) (e : exn) (acc : gmap Z matrix) :
  Forall (fun l => exists p, propagate (h l) tf u = Ok p) pre ->
  propagate (h sat) tf u = Raise e ->
  collect h tf u (pre ++ sat :: post) acc = Raise e.
Proof.
  intros Hpre Hsat. revert acc.
  induction Hpre as [|l pre [p Hl] _ IH]; intros acc; simpl.
  - rewrite Hsat. reflexivity.
  - rewrite Hl. simpl. apply IH.
Qed.

(** C7 (amended).  [run] has no handler: when the propagation of a
    satellite raises, after the satellites before it were propagated,
    the exception leaves [run], the satellites after it are not looked
    at, and [sim_data] and the satellites are as before the call. *)
Theorem run_aborts_at_first_failure (pre post : list ref) (sat : ref)
    (c : Controller) (tf : Z) (w : World) (e : exn) :
  Forall (fun l => exists p,
            fst (get_trajectory_ODE l tf (get_u_func c) w) = Ok p) pre ->
  fst (get_trajectory_ODE sat tf (get_u_func c) w) = Raise e ->
  run (pre ++ sat :: post) c tf w = (Raise e, w).
Proof.
  intros Hpre Hsat. rewrite run_collect.
  rewrite get_trajectory_ODE_snapshot in Hsat. simpl in Hsat.
  rewrite (collect_first_failure (heap w) tf (get_u_func c) pre post sat e ∅);
    [reflexivity| |exact Hsat].
  eapply Forall_impl; [exact Hpre|].
  intros l [p Hp]. exists p.
  rewrite get_trajectory_ODE_snapshot in Hp. exact Hp.
Qed.

(** C8 (amended).  For a satellite whose position norm is not zero,
    however near zero it is, nothing fails fast: the pipeline makes no
    check of the norm.  With a nonzero mass and [tf >= 0] it calls the
    solver on the normalized state, and it ends as that call lets it: it
    raises what the solver raises, it raises [TypeError] when the solver
    has returned no sample, and in every other case it returns a
    trajectory. *)
Theorem position_norm_not_checked (sat : ref) (tf : Z) (u : ControlFunction)
    (w : World) :
  norm (position (heap w sat)) <> 0 ->
  mass (heap w sat) <> 0 ->
  (0 <= tf)%Z ->
  exists ts : list R,
    times tf = Ok ts /\
    match solve_ivp (rhs_of (heap w sat) tf u) (span tf)
                    (y0_of (heap w sat)) ts 0.001 with
    | Raise e => get_trajectory_ODE sat tf u w = (Raise e, w)
    | Ok sol =>
        match sol_y sol with
        | [] => get_trajectory_ODE sat tf u w = (Raise TypeError, w)
        | _ :: _ => exists pos : matrix, get_trajectory_ODE sat tf u w = (Ok pos, w)
        end
    end.
Proof.
  intros _ Hm Htf.
  pose proof (times_spec tf) as Hspec.
  destruct (times tf) as [ts|e0] eqn:E; [|destruct Hspec; lia].
  exists ts. split; [reflexivity|].
  rewrite get_trajectory_ODE_snapshot, propagate_nonzero_mass by exact Hm.
  rewrite E. cbn [rbind].
  destruct (solve_ivp _ _ _ ts 0.001) as [sol|e']; cbn [rbind]; [|reflexivity].
  destruct (sol_y sol) as [|row rows]; cbn [rows_0_3 rbind]; [reflexivity|].
  eexists. reflexivity.
Qed.

(** *** When the dynamics returns *)

Lemma satellite_dynamics_returns (tau tf : R) (u : ControlFunction) (c : Const.t)
    (y : vec) :
  length y = 7%nat -> length (u tau) = 3%nat -> Const.RHO c <> 0 ->
  exists k, satellite_dynamics tau y u tf c = Ok k /\ length k = 7%nat.
Proof.
  intros Hy Hu Hrho.
  destruct y as [|rx [|ry [|rz [|vx [|vy [|vz [|m [|x y]]]]]]]]; try discriminate Hy.
  assert (Hd : length (vdiv (u tau) m) = 3%nat)
    by (unfold vdiv; rewrite length_map; exact Hu).
  rewrite (satellite_dynamics_7_3 tau tf u c rx ry rz vx vy vz m _ eq_refl Hd Hrho).
  eexists; split; [reflexivity|].
  destruct (vdiv (u tau) m) as [|u1 [|u2 [|u3 [|u4 ut]]]]; try discriminate Hd.
  reflexivity.
Qed.

Lemma satellite_dynamics_short (tau tf : R) (u : ControlFunction) (c : Const.t)
    (y : vec) :
  (length y < 7)%nat -> satellite_dynamics tau y u tf c = Raise IndexError.
Proof.
  intros Hy. unfold satellite_dynamics, index at 1.
  destruct (nth_error y 6) as [m|] eqn:E; [|reflexivity].
  assert (nth_error y 6 <> None) as N by congruence.
  apply nth_error_Some in N. lia.
Qed.

(** *** Further properties of the dynamics *)

Lemma accel_chain {B : Type} (g d ut : vec) (k : vec -> result B) :
  length g = 3%nat -> length d = 3%nat ->
  (exists a, (length ut = 1%nat \/ length ut = 3%nat) /\ length a = 3%nat /\
             (s2 <- vadd g ut ;; s3 <- vadd s2 d ;; a <- assign3 s3 ;; k a) = k a)
  \/ ((length ut <> 1%nat /\ length ut <> 3%nat) /\
      (s2 <- vadd g ut ;; s3 <- vadd s2 d ;; a <- assign3 s3 ;; k a)
      = Raise ValueError).
Proof.
  intros Hg Hd.
  destruct g as [|g1 [|g2 [|g3 [|g4 g]]]]; try discriminate Hg.
  destruct d as [|d1 [|d2 [|d3 [|d4 d]]]]; try discriminate Hd.
  destruct ut as [|u1 [|u2 [|u3 [|u4 ut]]]]; simpl;
    try (right; split; [split; discriminate|reflexivity]);
    left; eexists; (split; [|split; [|reflexivity]]; [auto|reflexivity]).
Qed.

Lemma seven_or_more (y : vec) :
  (7 <= length y)%nat ->
  exists rx ry rz vx vy vz m rest, y = rx :: ry :: rz :: vx :: vy :: vz :: m :: rest.
Proof.
  intros H.
  destruct y as [|rx [|ry [|rz [|vx [|vy [|vz [|m rest]]]]]]]; simpl in H; try lia.
  do 8 eexists. reflexivity.
Qed.


Lemma rbind_assoc {A B C : Type} (r : result A) (f : A -> result B)
    (g : B -> result C) :
  rbind (rbind r f) g = rbind r (fun a => rbind (f a) g).
Proof. destruct r; reflexivity. Qed.

Lemma scale_1 (v : vec) : scale 1 v = v.
Proof.
  unfold scale. rewrite <- (map_id v) at 2. apply map_ext. intros x. ring.
Qed.

(** X2.  Whenever the dynamics returns, its first three components are
    [tf] times [y[3:6]] and its last is [- tf |y[7:10]| / (G0 ISP)]:
    neither depends on the control function or on the time, and the mass
    flow is that of a thrust carried in the state beyond position 6. *)
Theorem satellite_dynamics_rates_of_state (tau tf : R) (u : ControlFunction)
    (c : Const.t) (y ydot : vec) :
  satellite_dynamics tau y u tf c = Ok ydot ->
  slice 0 3 ydot = scale tf (slice 3 6 y) /\
  nth_error ydot 6
  = Some (tf * (- norm (slice 7 10 y) / (Const.G0 c * Const.ISP c))).
Proof.
  intros H.
  destruct (le_lt_dec 7 (length y)) as [Hy|Hy];
    [|rewrite satellite_dynamics_short in H by exact Hy; discriminate H].
  destruct (seven_or_more y Hy) as (rx & ry & rz & vx & vy & vz & m & rest & E).
  subst y. rewrite satellite_dynamics_7_more in H.
  destruct (truediv _ _) as [q|e]; [|discriminate H]. cbn [rbind] in H.
  match type of H with
  | context [rbind (vadd ?g ?ut) _] =>
      match type of H with
      | context [vadd _ ?d] =>
          destruct (accel_chain g d ut
                      (fun a => Ok (scale tf ([vx; vy; vz] ++ a
                         ++ [- norm (slice 7 10
                                (rx :: ry :: rz :: vx :: vy :: vz :: m :: rest))
                               / (Const.G0 c * Const.ISP c)])))
                      eq_refl eq_refl)
            as [(a & _ & Ha & Hc)|[_ Hc]]
      end
  end; rewrite Hc in H; [|discriminate H].
  destruct a as [|a1 [|a2 [|a3 [|a4 a]]]]; try discriminate Ha.
  inversion H; subst ydot. split; reflexivity.
Qed.

(** X3.  The final time enters the dynamics as a factor only: the result
    for [tf] is [tf] times the result for [tf = 1], and the same exception
    is raised for every [tf]. *)
Theorem satellite_dynamics_linear_in_tf (tau tf : R) (u : ControlFunction)
    (c : Const.t) (y : vec) :
  satellite_dynamics tau y u tf c =
  (ydot <- satellite_dynamics tau y u 1 c ;; Ok (scale tf ydot)).
Proof.
  destruct (le_lt_dec 7 (length y)) as [Hy|Hy];
    [|rewrite !satellite_dynamics_short by exact Hy; reflexivity].
  destruct (seven_or_more y Hy) as (rx & ry & rz & vx & vy & vz & m & rest & E).
  subst y. rewrite !satellite_dynamics_7_more.
  destruct (truediv _ _) as [q|e]; [|reflexivity]. cbn [rbind].
  destruct (vadd _ (vdiv (u tau) m)) as [s2|e]; [|reflexivity]. cbn [rbind].
  destruct (vadd s2 _) as [s3|e]; [|reflexivity]. cbn [rbind].
  destruct (assign3 s3) as [a|e]; [|reflexivity]. cbn [rbind].
  rewrite scale_1. reflexivity.
Qed.

(** X4.  Gravity and the J2 term exert no torque about the polar axis: on
    a seven-component state, [rx * ay - ry * ax] of the returned
    acceleration comes from the thrust and the drag alone. *)
Theorem polar_torque_from_thrust_and_drag (tau tf : R) (u : ControlFunction)
    (c : Const.t) (rx ry rz vx vy vz m ux uy uz d0 d1 d2 d3 d4 d5 d6 : R) :
  u tau = [ux; uy; uz] ->
  satellite_dynamics tau [rx; ry; rz; vx; vy; vz; m] u tf c
  = Ok [d0; d1; d2; d3; d4; d5; d6] ->
  let k_drag := - 1 / 2 * C_D * Const.S c * (1 / m)
                * (get_atmo_density [rx; ry; rz] (Const.R0 c) / Const.RHO c)
                * norm [vx; vy; vz] in
  rx * d4 - ry * d3
  = tf * ((rx * uy - ry * ux) / m + k_drag * (rx * vy - ry * vx)).
Proof.
  intros Hu H k_drag.
  destruct (Req_dec_T (Const.RHO c) 0) as [Hz|Hnz];
    [rewrite satellite_dynamics_zero_rho in H by (simpl; lia || exact Hz);
     discriminate H|].
  rewrite (satellite_dynamics_7_3 tau tf u c rx ry rz vx vy vz m
             [ux / m; uy / m; uz / m]) in H;
    [|rewrite Hu; reflexivity|reflexivity|exact Hnz].
  unfold gravity_j2, drag_of in H. simpl in H.
  inversion H; subst. unfold k_drag, get_atmo_density, Rdiv. ring.
Qed.

(** X5.  Drag is a non-positive multiple of the velocity: against the same
    call with the reference area set to zero, the returned acceleration
    differs by [k] times the velocity with [k <= 0], for non-negative
    [tf], [C_D], area, and positive mass and reference density. *)
Theorem drag_opposes_velocity (tau tf : R) (u : ControlFunction)
    (c : Const.t) (rx ry rz vx vy vz m ux uy uz : R)
    (d0 d1 d2 d3 d4 d5 d6 e0 e1 e2 e3 e4 e5 e6 : R) :
  u tau = [ux; uy; uz] ->
  0 <= tf -> 0 <= C_D -> 0 <= Const.S c -> 0 < m -> 0 < Const.RHO c ->
  satellite_dynamics tau [rx; ry; rz; vx; vy; vz; m] u tf c
  = Ok [d0; d1; d2; d3; d4; d5; d6] ->
  satellite_dynamics tau [rx; ry; rz; vx; vy; vz; m] u tf
    (Const.Build (Const.MU c) (Const.R_E c) (Const.J2 c) 0 (Const.G0 c)
                 (Const.ISP c) (Const.R0 c) (Const.RHO c))
  = Ok [e0; e1; e2; e3; e4; e5; e6] ->
  exists k : R,
    k <= 0 /\ d3 - e3 = k * vx /\ d4 - e4 = k * vy /\ d5 - e5 = k * vz /\
    vx * (d3 - e3) + vy * (d4 - e4) + vz * (d5 - e5) <= 0.
Proof.
  intros Hu Htf Hcd Hs Hm Hrho H H0.
  rewrite (satellite_dynamics_7_3 tau tf u _ rx ry rz vx vy vz m
             [ux / m; uy / m; uz / m]) in H;
    [|rewrite Hu; reflexivity|reflexivity|lra].
  rewrite (satellite_dynamics_7_3 tau tf u _ rx ry rz vx vy vz m
             [ux / m; uy / m; uz / m]) in H0;
    [|rewrite Hu; reflexivity|reflexivity|simpl; lra].
  unfold gravity_j2, drag_of in H, H0. simpl in H, H0.
  inversion H; inversion H0; subst. clear H H0.
  set (P := C_D * Const.S c * (1 / m) * (9.983e-13 / Const.RHO c)
            * norm [vx; vy; vz]).
  assert (HP : 0 <= P).
  { assert (Hm' : 0 <= 1 / m) by (apply Rlt_le, Rdiv_lt_0_compat; lra).
    assert (Hr' : 0 <= 9.983e-13 / Const.RHO c)
      by (apply Rlt_le, Rdiv_lt_0_compat; lra).
    pose proof (norm_nonneg [vx; vy; vz]) as Hv.
    unfold P.
    apply Rmult_le_pos; [|exact Hv].
    apply Rmult_le_pos; [|exact Hr'].
    apply Rmult_le_pos; [|exact Hm'].
    apply Rmult_le_pos; assumption. }
  exists (tf * (- (1 / 2) * P)).
  assert (Hk : tf * (- (1 / 2) * P) <= 0) by nra.
  split; [exact Hk|].
  repeat split; try (unfold P, Rdiv; simpl; ring).
  assert (Hq : 0 <= vx * vx + vy * vy + vz * vz) by nra.
  replace (vx * _ + vy * _ + vz * _)
    with (tf * (- (1 / 2) * P) * (vx * vx + vy * vy + vz * vz))
    by (unfold P, Rdiv; simpl; ring).
  nra.
Qed.

(** X6.  A control function that gives a single component is accepted:
    the one value is applied along all three axes, so the result is that
    for the three-component thrust repeating it. *)
Theorem satellite_dynamics_scalar_thrust (tau tf x : R) (u u' : ControlFunction)
    (c : Const.t) (y : vec) :
  u tau = [x] -> u' tau = [x; x; x] ->
  satellite_dynamics tau y u tf c = satellite_dynamics tau y u' tf c.
Proof.
  intros Hu Hu'.
  destruct (le_lt_dec 7 (length y)) as [Hy|Hy];
    [|rewrite !satellite_dynamics_short by exact Hy; reflexivity].
  destruct (seven_or_more y Hy) as (rx & ry & rz & vx & vy & vz & m & rest & E).
  subst y. rewrite !satellite_dynamics_7_more, Hu, Hu'. reflexivity.
Qed.

(** *** Further properties of the normalization and the sampling *)

Lemma norm_sqr (v : vec) : norm v * norm v = sumsq v.
Proof. unfold norm. apply sqrt_sqrt. apply sumsq_nonneg. Qed.

(** X7.  The normalized initial position has norm one, whatever the
    satellite's distance: the normalized state always starts on the unit
    sphere. *)
Theorem normalized_position_unit_norm (s : Satellite) :
  norm (position s) <> 0 -> length (position s) = 3%nat ->
  norm (slice 0 3 (y0_of s)) = 1.
Proof.
  intros Hr Hp. unfold y0_of, vdiv, r0_of.
  pose proof (norm_sqr (position s)) as Hsq.
  destruct (position s) as [|p1 [|p2 [|p3 [|p4 p]]]]; try discriminate Hp.
  set (n := norm [p1; p2; p3]) in *. simpl in Hsq |- *.
  unfold norm. simpl.
  replace (p1 / n * (p1 / n) + (p2 / n * (p2 / n) + (p3 / n * (p3 / n) + 0)))
    with ((p1 * p1 + (p2 * p2 + (p3 * p3 + 0))) / (n * n))
    by (field; exact Hr).
  rewrite <- Hsq. replace (n * n / (n * n)) with 1 by (field; exact Hr).
  apply sqrt_1.
Qed.

(** X8.  The normalized gravitational parameter handed to the dynamics is
    [4 pi^2] for every satellite with a nonzero position norm: in
    normalized units the circular orbit of radius one has period one. *)
Theorem normalized_mu_is_four_pi_squared (s : Satellite) :
  0 < MU_EARTH -> norm (position s) <> 0 ->
  Const.MU (const_of s) = 4 * PI ^ 2.
Proof.
  intros Hmu Hr.
  destruct (scales_positive s Hmu Hr) as (Hr0 & Hs0 & _).
  unfold const_of, mu0_of. cbn [Const.MU].
  assert (Hx : 0 < r0_of s ^ 3 / MU_EARTH)
    by (apply Rdiv_lt_0_compat; [apply pow_lt; exact Hr0|exact Hmu]).
  assert (Hs2 : s0_of s ^ 2 = 4 * PI ^ 2 * (r0_of s ^ 3 / MU_EARTH)).
  { unfold s0_of.
    replace ((2 * PI * sqrt (r0_of s ^ 3 / MU_EARTH)) ^ 2)
      with (4 * PI ^ 2 * (sqrt (r0_of s ^ 3 / MU_EARTH)
                          * sqrt (r0_of s ^ 3 / MU_EARTH))) by ring.
    rewrite sqrt_sqrt by lra. reflexivity. }
  rewrite Hs2. pose proof PI_RGT_0 as Hpi.
  field. repeat split; lra.
Qed.

Lemma times_points (tf : Z) :
  (0 <= tf)%Z ->
  times tf = Ok (map (fun i : nat => INR i * (1 / (100 * IZR tf)))
                     (seq 0 (Z.to_nat (100 * tf + 1)))).
Proof.
  intros Htf. pose proof (times_spec tf) as H.
  destruct (times tf) as [ts|e]; [|destruct H; lia].
  destruct H as (_ & -> & _). reflexivity.
Qed.

(** X9.  For [tf >= 1] the sample points start at 0 and end at 1, and for
    [tf >= 2] every one of them lies strictly before the end [tf] of the
    integrated span: the trajectory returned covers the first orbit of the
    [tf] integrated. *)
Theorem samples_end_at_one (tf : Z) :
  (1 <= tf)%Z ->
  exists ts : list R,
    times tf = Ok ts /\ List.hd 0 ts = 0 /\ List.last ts 0 = 1 /\
    ((2 <= tf)%Z -> Forall (fun t => t < snd (span tf)) ts).
Proof.
  intros Htf.
  pose proof (times_spec tf) as Hspec.
  rewrite times_points in Hspec |- * by lia.
  eexists. split; [reflexivity|].
  destruct Hspec as (_ & _ & _ & Hunit & _).
  assert (Hn : Z.to_nat (100 * tf + 1) = S (Z.to_nat (100 * tf))) by lia.
  assert (Hd : 1 <= IZR tf) by (apply (IZR_le 1); exact Htf).
  rewrite Hn in Hunit |- *. split; [|split].
  - simpl. ring.
  - rewrite seq_S, List.map_app. cbn [map]. rewrite List.last_last. simpl.
    rewrite INR_IZR_INZ, Z2Nat.id, mult_IZR by lia.
    field. lra.
  - intros H2. assert (2 <= IZR tf) by (apply (IZR_le 2); exact H2).
    eapply Forall_impl; [exact Hunit|]. simpl. intros t Ht. lra.
Qed.

(** X10.  For [tf >= 1] consecutive sample points differ by
    [1 / (100 tf)]: the sample points are strictly increasing and equally
    spaced. *)
Theorem samples_equally_spaced (tf : Z) (ts : list R) (i : nat) (t t' : R) :
  (1 <= tf)%Z -> times tf = Ok ts ->
  nth_error ts i = Some t -> nth_error ts (S i) = Some t' ->
  t' - t = 1 / (100 * IZR tf) /\ t < t'.
Proof.
  intros Htf Hts Hi Hi'.
  rewrite times_points in Hts by lia. inversion Hts; subst ts; clear Hts.
  assert (Hd : 1 <= IZR tf) by (apply (IZR_le 1); exact Htf).
  rewrite nth_error_map in Hi, Hi'.
  destruct (nth_error (seq 0 _) i) as [j|] eqn:Ej; [|discriminate Hi].
  destruct (nth_error (seq 0 _) (S i)) as [j'|] eqn:Ej'; [|discriminate Hi'].
  assert (Li : (i < length (seq 0 (Z.to_nat (100 * tf + 1))))%nat)
    by (apply nth_error_Some; congruence).
  assert (Li' : (S i < length (seq 0 (Z.to_nat (100 * tf + 1))))%nat)
    by (apply nth_error_Some; congruence).
  rewrite length_seq in Li, Li'.
  rewrite (nth_error_nth' _ 0%nat) in Ej by (rewrite length_seq; exact Li).
  rewrite (nth_error_nth' _ 0%nat) in Ej' by (rewrite length_seq; exact Li').
  rewrite seq_nth in Ej, Ej' by assumption.
  cbn [Nat.add] in Ej, Ej'.
  assert (j = i) by congruence. assert (j' = S i) by congruence. subst j j'.
  cbn [option_map] in Hi, Hi'.
  assert (Et : t = INR i * (1 / (100 * IZR tf))) by congruence.
  assert (Et' : t' = INR (S i) * (1 / (100 * IZR tf))) by congruence.
  assert (Hstep : 0 < 1 / (100 * IZR tf)) by (apply Rdiv_lt_0_compat; lra).
  rewrite Et, Et', S_INR. split; [ring|]. lra.
Qed.

(** *** Further properties of [run] *)

Lemma collect_notin (h : ref -> Satellite) (tf : Z) (u : ControlFunction)
    (sats : list ref) (acc d : gmap Z matrix) (k : Z) :
  collect h tf u sats acc = Ok d ->
  (forall l, In l sats -> id (h l) <> k) ->
  d !! k = acc !! k.
Proof.
  revert acc. induction sats as [|sat rest IH]; intros acc H Hk; simpl in H.
  - congruence.
  - destruct (propagate (h sat) tf u) as [p|e]; [|discriminate H]. simpl in H.
    rewrite (IH _ H) by (intros l Hl; apply Hk; right; exact Hl).
    apply lookup_insert_ne. apply Hk. left. reflexivity.
Qed.

Lemma collect_keeps (h : ref -> Satellite) (tf : Z) (u : ControlFunction)
    (sats : list ref) (acc d : gmap Z matrix) (k : Z) :
  collect h tf u sats acc = Ok d -> acc !! k <> None -> d !! k <> None.
Proof.
  revert acc. induction sats as [|sat rest IH]; intros acc H Hk; simpl in H.
  - congruence.
  - destruct (propagate (h sat) tf u) as [p|e]; [|discriminate H]. simpl in H.
    apply (IH _ H).
    destruct (Z.eq_dec (id (h sat)) k) as [->|Hne].
    + rewrite lookup_insert_eq. discriminate.
    + rewrite lookup_insert_ne by exact Hne. exact Hk.
Qed.

Lemma collect_has (h : ref -> Satellite) (tf : Z) (u : ControlFunction)
    (sats : list ref) (acc d : gmap Z matrix) (l : ref) :
  collect h tf u sats acc = Ok d -> In l sats -> d !! id (h l) <> None.
Proof.
  revert acc. induction sats as [|sat rest IH]; intros acc H Hl; simpl in H.
  - destruct Hl.
  - destruct (propagate (h sat) tf u) as [p|e]; [|discriminate H]. simpl in H.
    destruct Hl as [->|Hl].
    + apply (collect_keeps _ _ _ _ _ _ _ H). rewrite lookup_insert_eq. discriminate.
    + exact (IH _ H Hl).
Qed.

Lemma collect_last (h : ref -> Satellite) (tf : Z) (u : ControlFunction)
    (pre post : list ref) (l : ref) (p : matrix) (acc d : gmap Z matrix) :
  collect h tf u (pre ++ l :: post) acc = Ok d ->
  propagate (h l) tf u = Ok p ->
  (forall l', In l' post -> id (h l') <> id (h l)) ->
  d !! id (h l) = Some p.
Proof.
  revert acc. induction pre as [|a pre IH]; intros acc H Hp Hpost; simpl in H.
  - rewrite Hp in H. simpl in H.
    rewrite (collect_notin _ _ _ _ _ _ _ H Hpost). apply lookup_insert_eq.
  - destruct (propagate (h a) tf u) as [q|e]; [|discriminate H]. simpl in H.
    exact (IH _ H Hp Hpost).
Qed.

Lemma collect_all_ok (h : ref -> Satellite) (tf : Z) (u : ControlFunction)
    (sats : list ref) (acc : gmap Z matrix) :
  Forall (fun l => exists p, propagate (h l) tf u = Ok p) sats ->
  exists d, collect h tf u sats acc = Ok d.
Proof.
  intros H. revert acc. induction H as [|l sats [p Hp] _ IH]; intros acc; simpl.
  - eexists. reflexivity.
  - rewrite Hp. simpl. apply IH.
Qed.

(** X11.  When the propagation of every satellite returns, [run] returns
    a dictionary and stores it as [sim_data]: its keys are exactly the
    ids of the satellites, and an id holds the trajectory of the last
    satellite in the list that carries it (a later satellite with the
    same id replaces an earlier one). *)
Theorem run_builds_dictionary (sats : list ref) (c : Controller) (tf : Z)
    (w : World) :
  Forall (fun l => exists p,
            fst (get_trajectory_ODE l tf (get_u_func c) w) = Ok p) sats ->
  exists d : gmap Z matrix,
    run sats c tf w = (Ok d, mkWorld (heap w) d) /\
    (forall k, d !! k = None <-> forall l, In l sats -> id (heap w l) <> k) /\
    (forall pre l post p,
        sats = pre ++ l :: post ->
        fst (get_trajectory_ODE l tf (get_u_func c) w) = Ok p ->
        (forall l', In l' post -> id (heap w l') <> id (heap w l)) ->
        d !! id (heap w l) = Some p).
Proof.
  intros Hall.
  assert (Hall' : Forall (fun l => exists p,
             propagate (heap w l) tf (get_u_func c) = Ok p) sats).
  { eapply Forall_impl; [exact Hall|]. intros l [p Hp]. exists p.
    rewrite get_trajectory_ODE_snapshot in Hp. exact Hp. }
  destruct (collect_all_ok (heap w) tf (get_u_func c) sats ∅ Hall') as [d Hd].
  exists d. split; [rewrite run_collect, Hd; reflexivity|]. split.
  - intros k. split.
    + intros Hnone l Hl Hid. subst k.
      exact (collect_has _ _ _ _ _ _ _ Hd Hl Hnone).
    + intros Hk. rewrite (collect_notin _ _ _ _ _ _ _ Hd Hk).
      apply lookup_empty.
  - intros pre l post p -> Hp Hpost.
    rewrite get_trajectory_ODE_snapshot in Hp.
    exact (collect_last _ _ _ _ _ _ _ _ _ Hd Hp Hpost).
Qed.

(** X12.  [run] never changes a satellite, and running it again on the
    world it leaves gives the same outcome and the same world. *)
Theorem run_again_same (sats : list ref) (c : Controller) (tf : Z) (w : World) :
  heap (snd (run sats c tf w)) = heap w /\
  run sats c tf (snd (run sats c tf w)) = run sats c tf w.
Proof.
  rewrite (run_collect sats c tf w).
  destruct (collect (heap w) tf (get_u_func c) sats ∅) as [d|e] eqn:E.
  - split; [reflexivity|]. rewrite run_collect. simpl. rewrite E. reflexivity.
  - split; [reflexivity|]. rewrite run_collect. simpl. rewrite E. reflexivity.
Qed.

(** X13.  What [run] returns does not depend on what [sim_data] held
    before, and a run that returns leaves no trace of it: the dictionary
    is replaced, not updated. *)
Theorem run_discards_previous_data (sats : list ref) (c : Controller) (tf : Z)
    (w : World) (d0 : gmap Z matrix) :
  fst (run sats c tf (mkWorld (heap w) d0)) = fst (run sats c tf w) /\
  match fst (run sats c tf w) with
  | Ok d => snd (run sats c tf (mkWorld (heap w) d0)) = mkWorld (heap w) d /\
            snd (run sats c tf w) = mkWorld (heap w) d
  | Raise _ => snd (run sats c tf (mkWorld (heap w) d0)) = mkWorld (heap w) d0
  end.
Proof.
  rewrite !run_collect. simpl.
  destruct (collect (heap w) tf (get_u_func c) sats ∅) as [d|e]; simpl;
    repeat split; reflexivity.
Qed.

(** X14.  A solver result that reports no success but is returned without
    an exception, with the samples it has reached, is taken as the
    trajectory: for a satellite of nonzero mass [run] stores it under
    the satellite's id like a successful one, and nothing records the
    failure. *)
Theorem run_stores_unsuccessful_result (sat : ref) (c : Controller) (tf : Z)
    (w : World) (ts : list R) (sol : OdeResult) :
  mass (heap w sat) <> 0 ->
  times tf = Ok ts ->
  solve_ivp (rhs_of (heap w sat) tf (get_u_func c)) (span tf)
            (y0_of (heap w sat)) ts 0.001 = Ok sol ->
  sol_y sol <> [] ->
  sol_success sol = false ->
  let p := mmul (slice 0 3 (sol_y sol)) (r0_of (heap w sat)) in
  run [sat] c tf w
  = (Ok {[ id (heap w sat) := p ]},
     mkWorld (heap w) {[ id (heap w sat) := p ]}).
Proof.
  intros Hm Hts Hsol Hrows _ p. rewrite run_collect. simpl.
  rewrite propagate_nonzero_mass by exact Hm.
  rewrite Hts. cbn [rbind]. rewrite Hsol. cbn [rbind].
  rewrite rows_0_3_rows by exact Hrows. cbn [rbind].
  rewrite insert_empty. reflexivity.
Qed.

(** *** The forward-Euler step *)

Lemma vadd_same_length (a b : vec) :
  length a = length b -> vadd a b = Ok (zip_add a b).
Proof.
  intros H. unfold vadd. rewrite (proj2 (Nat.eqb_eq _ _) H). reflexivity.
Qed.

Lemma vadd_raises_ValueError (a b : vec) (e : exn) :
  vadd a b = Raise e -> e = ValueError.
Proof.
  unfold vadd. destruct (Nat.eqb (length a) (length b)); [discriminate|].
  destruct a as [|x [|x' a]]; destruct b as [|y [|y' b]];
    try discriminate; intros H; inversion H; reflexivity.
Qed.

Lemma zip_add_length (a b : vec) :
  length (zip_add a b) = Nat.min (length a) (length b).
Proof.
  revert b. induction a as [|x a IH]; intros [|y b]; simpl; auto.
Qed.

Lemma euler_step_three_vectors (ts : R) (s : Satellite) :
  three_vectors s -> three_vectors (euler_step ts s).
Proof.
  intros (Hp & Hv & Ht). unfold three_vectors, euler_step, vmul, scale, vdiv. simpl.
  rewrite !zip_add_length, !length_map, !zip_add_length, !length_map, Hp, Hv, Ht.
  repeat split; reflexivity.
Qed.

Lemma update_satellite_state_three_vectors (sat : ref) (ts : R) (w : World) :
  three_vectors (heap w sat) ->
  exists w' : World,
    update_satellite_state sat ts w = (Ok tt, w') /\
    heap w' sat = euler_step ts (heap w sat) /\
    (forall l, l <> sat -> heap w' l = heap w l) /\
    sim_data w' = sim_data w.
Proof.
  intros (Hp & Hv & Ht).
  unfold update_satellite_state, bind, getattr, lift.
  rewrite vadd_same_length
    by (unfold vmul; rewrite length_map; congruence).
  rewrite vadd_same_length
    by (unfold scale, vdiv; rewrite !length_map; congruence).
  rewrite vadd_same_length
    by (unfold vmul, scale, vdiv;
        rewrite length_map, zip_add_length, !length_map, Hp, Ht, Hv; reflexivity).
  eexists. split; [reflexivity|].
  unfold set_position, set_velocity, set_mass, update_heap. simpl.
  split; [|split].
  - rewrite Nat.eqb_refl. reflexivity.
  - intros l Hl. apply Nat.eqb_neq in Hl. rewrite Hl. reflexivity.
  - reflexivity.
Qed.

(** X15.  On a satellite with three-component position, velocity and
    thrust the Euler step never raises; it is the explicit step (the new
    position from the old velocity, the new velocity from the old
    position), it leaves three-component arrays, and it writes nothing
    but that satellite. *)
Theorem update_satellite_state_step (sat : ref) (ts : R) (w : World) :
  three_vectors (heap w sat) ->
  exists w' : World,
    update_satellite_state sat ts w = (Ok tt, w') /\
    position (heap w' sat)
      = zip_add (vmul (velocity (heap w sat)) ts) (position (heap w sat)) /\
    velocity (heap w' sat)
      = zip_add (vmul (zip_add (scale (- (MU_EARTH / norm (position (heap w sat)) ^ 3))
                                      (position (heap w sat)))
                               (vdiv (thrust (heap w sat)) (mass (heap w sat)))) ts)
                (velocity (heap w sat)) /\
    three_vectors (heap w' sat) /\
    (forall l, l <> sat -> heap w' l = heap w l) /\
    sim_data w' = sim_data w.
Proof.
  intros Hwf.
  destruct (update_satellite_state_three_vectors sat ts w Hwf)
    as (w' & H & Hs & Hf & Hd).
  exists w'. split; [exact H|]. rewrite Hs.
  repeat split; try reflexivity; try assumption;
    apply (euler_step_three_vectors ts _ Hwf).
Qed.

Lemma update_satellite_state_cases (sat : ref) (ts : R) (w : World) :
  match update_satellite_state sat ts w with
  | (Ok _, w') =>
      id (heap w' sat) = id (heap w sat) /\
      thrust (heap w' sat) = thrust (heap w sat) /\
      mass (heap w' sat)
        = norm (thrust (heap w sat)) / G0 * ISP * ts + mass (heap w sat) /\
      (forall l, l <> sat -> heap w' l = heap w l) /\
      sim_data w' = sim_data w
  | (Raise e, w') => e = ValueError /\ w' = w
  end.
Proof.
  unfold update_satellite_state, bind, getattr, lift.
  destruct (vadd (vmul _ ts) _) as [pn|e] eqn:E1;
    [|split; [exact (vadd_raises_ValueError _ _ _ E1)|reflexivity]].
  destruct (vadd (scale _ _) _) as [a|e] eqn:E2;
    [|split; [exact (vadd_raises_ValueError _ _ _ E2)|reflexivity]].
  destruct (vadd (vmul a ts) _) as [vn|e] eqn:E3;
    [|split; [exact (vadd_raises_ValueError _ _ _ E3)|reflexivity]].
  unfold set_position, set_velocity, set_mass, update_heap. simpl.
  rewrite Nat.eqb_refl. simpl. repeat split; try reflexivity.
  intros l Hl. apply Nat.eqb_neq in Hl. rewrite Hl. reflexivity.
Qed.

(** X16.  Whatever the satellite, the Euler step either raises a
    [ValueError] and has written nothing, or returns and has left the
    satellite's id and thrust, every other satellite and [sim_data] as
    they were. *)
Theorem update_satellite_state_frame (sat : ref) (ts : R) (w : World) :
  match update_satellite_state sat ts w with
  | (Ok _, w') =>
      id (heap w' sat) = id (heap w sat) /\
      thrust (heap w' sat) = thrust (heap w sat) /\
      (forall l, l <> sat -> heap w' l = heap w l) /\
      sim_data w' = sim_data w
  | (Raise e, w') => e = ValueError /\ w' = w
  end.
Proof.
  pose proof (update_satellite_state_cases sat ts w) as H.
  destruct (update_satellite_state sat ts w) as [[u|e] w']; [|exact H].
  destruct H as (H1 & H2 & _ & H4 & H5). auto.
Qed.

(** X17.  The Euler step adds [|thrust| / G0 * ISP * time_step] to the
    mass: with positive [G0], [ISP] and time step, a satellite under
    nonzero thrust comes out of the step heavier than it went in. *)
Theorem update_satellite_state_mass_grows (sat : ref) (ts : R) (w w' : World) :
  0 < G0 -> 0 < ISP -> 0 < ts -> norm (thrust (heap w sat)) <> 0 ->
  update_satellite_state sat ts w = (Ok tt, w') ->
  mass (heap w' sat)
    = norm (thrust (heap w sat)) / G0 * ISP * ts + mass (heap w sat) /\
  mass (heap w sat) < mass (heap w' sat).
Proof.
  intros Hg Hi Ht Hn H.
  pose proof (update_satellite_state_cases sat ts w) as Hc.
  rewrite H in Hc. destruct Hc as (_ & _ & Hm & _).
  split; [exact Hm|]. rewrite Hm.
  pose proof (norm_nonneg (thrust (heap w sat))) as H0.
  assert (Hpos : 0 < norm (thrust (heap w sat)) / G0 * ISP * ts).
  { apply Rmult_lt_0_compat; [|exact Ht].
    apply Rmult_lt_0_compat; [|exact Hi].
    apply Rdiv_lt_0_compat; lra. }
  lra.
Qed.

(** *** The forward-Euler propagation *)

Lemma assign3_three (a : vec) : length a = 3%nat -> assign3 a = Ok a.
Proof.
  intros H. destruct a as [|x1 [|x2 [|x3 [|x4 a]]]]; try discriminate H.
  reflexivity.
Qed.

Lemma iter_three_vectors (ts : R) (s : Satellite) (n : nat) :
  three_vectors s -> three_vectors (Nat.iter n (euler_step ts) s).
Proof.
  intros H. induction n as [|n IH]; simpl; [exact H|].
  apply euler_step_three_vectors. exact IH.
Qed.

Lemma iter_shift {A : Type} (f : A -> A) (x : A) (n : nat) :
  Nat.iter n f (f x) = Nat.iter (S n) f x.
Proof. induction n as [|n IH]; simpl; [reflexivity|]. rewrite IH. reflexivity. Qed.

Lemma matrix_insert_length (rows : matrix) (k : nat) (row : vec) :
  length (<[k := row]> rows) = length rows.
Proof. apply length_insert. Qed.

Lemma matrix_take_insert (rows : matrix) (k : nat) (row : vec) :
  (k < length rows)%nat -> take (S k) (<[k := row]> rows) = take k rows ++ [row].
Proof.
  intros H. rewrite (take_S_r _ _ row) by (apply list_lookup_insert_eq; exact H).
  f_equal. apply take_insert_ge. lia.
Qed.

Lemma matrix_drop_insert (rows : matrix) (k n : nat) (row : vec) :
  (k < n)%nat -> drop n (<[k := row]> rows) = drop n rows.
Proof. intros H. apply drop_insert_lt. exact H. Qed.

Lemma get_trajectory_loop_spec (sat : ref) (ts : R) (m : nat) :
  forall (k : nat) (rows : matrix) (w : World) (out : list printed),
    three_vectors (heap w sat) ->
    (k + m <= length rows)%nat ->
    let s := heap w sat in
    let new := map (fun j => position (Nat.iter (S j) (euler_step ts) s)) (seq 0 m) in
    exists w' : World,
      get_trajectory_loop sat ts (seq k m) rows w out
      = (Ok (take k rows ++ new ++ drop (k + m) rows), w',
         out ++ crash_lines R_EARTH new) /\
      heap w' sat = Nat.iter m (euler_step ts) s /\
      (forall l, l <> sat -> heap w' l = heap w l) /\
      sim_data w' = sim_data w.
Proof.
  induction m as [|m IH]; intros k rows w out Hwf Hlen s new.
  - exists w. simpl. rewrite Nat.add_0_r, take_drop, app_nil_r.
    repeat split; reflexivity.
  - destruct (update_satellite_state_three_vectors sat ts w Hwf)
      as (w1 & Hstep & Hs1 & Hf1 & Hd1).
    assert (Hwf1 : three_vectors (heap w1 sat))
      by (rewrite Hs1; apply euler_step_three_vectors; exact Hwf).
    set (row := position (heap w1 sat)).
    assert (Hrow : assign3 row = Ok row)
      by (apply assign3_three; exact (proj1 Hwf1)).
    assert (Hlen1 : (S k + m <= length (<[k := row]> rows))%nat)
      by (rewrite matrix_insert_length; lia).
    destruct (IH (S k) (<[k := row]> rows) w1
                 (if Rlt_dec (norm row) R_EARTH
                  then out ++ [PrintCrashed; PrintArray row] else out)
                 Hwf1 Hlen1)
      as (w' & Hloop & Hs' & Hf' & Hd').
    exists w'. split; [|split; [|split]].
    + cbn [seq get_trajectory_loop]. rewrite Hstep. fold row. rewrite Hrow.
      rewrite Hloop. f_equal; [f_equal|].
      * f_equal.
        rewrite matrix_take_insert by lia.
        rewrite matrix_drop_insert by lia.
        rewrite <- app_assoc. f_equal. unfold new.
        cbn [seq map app]. rewrite <- seq_shift, List.map_map.
        replace (k + S m)%nat with (S k + m)%nat by lia.
        f_equal; [unfold row; rewrite Hs1; reflexivity|].
        f_equal. apply map_ext. intros j. rewrite Hs1.
        rewrite iter_shift. reflexivity.
      * unfold new. cbn [seq map]. rewrite <- seq_shift, List.map_map.
        cbn [crash_lines flat_map].
        replace (position (Nat.iter 1 (euler_step ts) s)) with row
          by (unfold row; rewrite Hs1; reflexivity).
        replace (map (fun x => position (Nat.iter (S (S x)) (euler_step ts) s))
                     (seq 0 m))
          with (map (fun j => position (Nat.iter (S j) (euler_step ts) (heap w1 sat)))
                    (seq 0 m))
          by (apply map_ext; intros j; rewrite Hs1, iter_shift; reflexivity).
        unfold crash_lines.
        destruct (Rlt_dec (norm row) R_EARTH); [|reflexivity].
        rewrite <- app_assoc. reflexivity.
    + rewrite Hs', Hs1. apply iter_shift.
    + intros l Hl. rewrite (Hf' l Hl). apply Hf1. exact Hl.
    + congruence.
Qed.

Lemma py_int_small (x : R) : -1 < x < 1 -> py_int x = 0%Z.
Proof.
  intros [H1 H2]. unfold py_int. destruct (Rle_dec 0 x) as [H|H].
  - apply Zfloor_eq. simpl. lra.
  - apply Zceil_eq. simpl. lra.
Qed.

Lemma py_int_negative (x : R) : x <= -1 -> (py_int x < 0)%Z.
Proof.
  intros H. unfold py_int. destruct (Rle_dec 0 x) as [H0|H0]; [lra|].
  pose proof (Zceil_bound x) as [Hb _].
  apply lt_IZR. lra.
Qed.

(** X18.  On a satellite with three-component arrays and for a nonzero
    time step with [int(tf / ts) = n >= 0], the Euler propagation returns
    [n] rows: row [i] is the position after [i + 1] steps (the initial
    position is not among them), the satellite is left in the state after
    [n] steps, and no other satellite is touched.  The crash test does
    not end the loop: the [n] rows are there whatever [R_EARTH] is. *)
Theorem get_trajectory_rows (sat : ref) (ts tf : R) (w : World) :
  ts <> 0 -> (0 <= py_int (tf / ts))%Z -> three_vectors (heap w sat) ->
  let n := Z.to_nat (py_int (tf / ts)) in
  let s := heap w sat in
  exists (w' : World) (out : list printed),
    get_trajectory sat ts tf w
    = (Returned (map (fun i => position (Nat.iter (S i) (euler_step ts) s))
                     (seq 0 n)), w', out) /\
    heap w' sat = Nat.iter n (euler_step ts) s /\
    (forall l, l <> sat -> heap w' l = heap w l) /\
    sim_data w' = sim_data w.
Proof.
  intros Hts Hn Hwf n s.
  assert (Hlen : (0 + n <= length (repeat [0%R; 0%R; 0%R] n))%nat)
    by (rewrite repeat_length; lia).
  destruct (get_trajectory_loop_spec sat ts n 0 (repeat [0; 0; 0] n) w [] Hwf Hlen)
    as (w' & Hloop & Hs & Hf & Hd).
  exists w'. eexists. split; [|split; [|split]]; try assumption.
  unfold get_trajectory.
  destruct (Req_dec_T ts 0) as [E|_]; [contradiction|].
  destruct (Z.ltb_spec (py_int (tf / ts)) 0) as [Hneg|_]; [lia|].
  fold n. rewrite Hloop. cbn [take app Nat.add].
  rewrite drop_ge by (rewrite repeat_length; lia).
  rewrite app_nil_r. reflexivity.
Qed.

(** X19.  What the Euler propagation prints, under the same conditions:
    for each returned row whose norm is below [R_EARTH], in order, the
    line "Crashed!" and the row; then the line with [ts] and the
    difference between the norms of the final and the initial position. *)
Theorem get_trajectory_printed (sat : ref) (ts tf : R) (w : World) :
  ts <> 0 -> (0 <= py_int (tf / ts))%Z -> three_vectors (heap w sat) ->
  let n := Z.to_nat (py_int (tf / ts)) in
  let s := heap w sat in
  exists (rows : matrix) (w' : World),
    get_trajectory sat ts tf w
    = (Returned rows, w',
       crash_lines R_EARTH rows
       ++ [PrintErrorWith ts;
           PrintNumber (norm (position (Nat.iter n (euler_step ts) s))
                        - norm (position s))]).
Proof.
  intros Hts Hn Hwf n s.
  assert (Hlen : (0 + n <= length (repeat [0%R; 0%R; 0%R] n))%nat)
    by (rewrite repeat_length; lia).
  destruct (get_trajectory_loop_spec sat ts n 0 (repeat [0; 0; 0] n) w [] Hwf Hlen)
    as (w' & Hloop & Hs & Hf & Hd).
  eexists. exists w'.
  unfold get_trajectory.
  destruct (Req_dec_T ts 0) as [E|_]; [contradiction|].
  destruct (Z.ltb_spec (py_int (tf / ts)) 0) as [Hneg|_]; [lia|].
  fold n. rewrite Hloop. cbn [take app Nat.add].
  rewrite drop_ge by (rewrite repeat_length; lia).
  rewrite app_nil_r, Hs. reflexivity.
Qed.

(** X20.  When [tf / ts] lies strictly between -1 and 1 the step count is
    zero: the Euler propagation returns the empty history for every
    satellite, changes nothing, and prints a drift of zero. *)
Theorem get_trajectory_no_step (sat : ref) (ts tf : R) (w : World) :
  ts <> 0 -> -1 < tf / ts < 1 ->
  exists x : R,
    get_trajectory sat ts tf w
    = (Returned [], w, [PrintErrorWith ts; PrintNumber x]) /\ x = 0.
Proof.
  intros Hts Hq. unfold get_trajectory.
  destruct (Req_dec_T ts 0) as [E|_]; [contradiction|].
  rewrite (py_int_small _ Hq). simpl.
  eexists. split; [reflexivity|]. ring.
Qed.

(** X21.  For a nonzero time step with [tf / ts] at -1 or below the Euler
    propagation asks for a negative number of rows and ends with a
    [ValueError]; nothing is written and nothing printed. *)
Theorem get_trajectory_negative_count (sat : ref) (ts tf : R) (w : World) :
  ts <> 0 -> tf / ts <= -1 ->
  get_trajectory sat ts tf w = (Raised ValueError, w, []).
Proof.
  intros Hts H. unfold get_trajectory.
  destruct (Req_dec_T ts 0) as [E|_]; [contradiction|].
  pose proof (py_int_negative _ H) as Hn.
  apply Z.ltb_lt in Hn. rewrite Hn. reflexivity.
Qed.

End Simulator.

(** ** The array operations on small inputs *)

Example slice_past_the_end : slice 7 10 [1; 2; 3; 4; 5; 6; 7] = ([] : vec).
Proof. reflexivity. Qed.

Example slice_velocity : slice 3 6 [1; 2; 3; 4; 5; 6; 7] = [4; 5; 6].
Proof. reflexivity. Qed.

Example index_past_the_end : index [1; 2; 3; 4; 5; 6] 6 = Raise IndexError.
Proof. reflexivity. Qed.

Example vadd_stretches : vadd [1; 2; 3] [10] = Ok [1 + 10; 2 + 10; 3 + 10].
Proof. reflexivity. Qed.

Example vadd_shape_mismatch : vadd [1; 2; 3] [1; 2] = Raise ValueError.
Proof. reflexivity. Qed.

Example linspace_three_points :
  exists a b c, linspace 0 1 3 = Ok [a; b; c] /\ a = 0 /\ b = 1 / 2 /\ c = 1.
Proof.
  do 3 eexists. split; [reflexivity|]. simpl INR.
  repeat split; field.
Qed.

Example linspace_negative_count : linspace 0 1 (-99) = Raise ValueError.
Proof. reflexivity. Qed.

(** ** The small solver *)

Lemma euler_solve_ivp_ok (f : R -> vec -> result vec) (sp : R * R) (y0 : vec)
    (ts : list R) (ms : R) (k : vec) :
  Forall (within_span sp) ts -> f (fst sp) y0 = Ok k -> length k = length y0 ->
  fst sp <> snd sp ->
  euler_solve_ivp f sp y0 ts ms =
  Ok (mkOdeResult
        (map (fun p => map (fun t => fst p + (t - fst sp) * snd p) ts) (combine y0 k))
        true).
Proof.
  intros Hts Hk Hlen Hsp. unfold euler_solve_ivp.
  rewrite (forallb_within_span _ _ Hts), Hk. simpl.
  rewrite (proj2 (Nat.eqb_eq _ _) Hlen).
  destruct (Req_dec_T (fst sp) (snd sp)) as [E|_]; [contradiction|reflexivity].
Qed.

Lemma euler_solve_ivp_zero_span (f : R -> vec -> result vec) (sp : R * R) (y0 : vec)
    (ts : list R) (ms : R) (k : vec) :
  Forall (within_span sp) ts -> f (fst sp) y0 = Ok k -> length k = length y0 ->
  fst sp = snd sp ->
  euler_solve_ivp f sp y0 ts ms = Ok (mkOdeResult [] true).
Proof.
  intros Hts Hk Hlen Hsp. unfold euler_solve_ivp.
  rewrite (forallb_within_span _ _ Hts), Hk. simpl.
  rewrite (proj2 (Nat.eqb_eq _ _) Hlen).
  destruct (Req_dec_T (fst sp) (snd sp)) as [_|N]; [reflexivity|contradiction].
Qed.

Lemma euler_solve_ivp_raise (f : R -> vec -> result vec) (sp : R * R) (y0 : vec)
    (ts : list R) (ms : R) (e : exn) :
  Forall (within_span sp) ts -> f (fst sp) y0 = Raise e ->
  euler_solve_ivp f sp y0 ts ms = Raise e.
Proof.
  intros Hts Hk. unfold euler_solve_ivp.
  rewrite (forallb_within_span _ _ Hts), Hk. reflexivity.
Qed.

Lemma euler_samples_every_point : samples_every_point euler_solve_ivp.
Proof.
  intros f sp y0 ts ms sol Hsp _ _ H _. unfold euler_solve_ivp in H.
  destruct (forallb _ ts); [|discriminate H].
  destruct (f (fst sp) y0) as [k|e]; [|discriminate H]. simpl in H.
  destruct (Nat.eqb (length k) (length y0)) eqn:E; [|discriminate H].
  destruct (Req_dec_T (fst sp) (snd sp)) as [Ez|_]; [lra|].
  apply Nat.eqb_eq in E. inversion H; subst sol; clear H. simpl. split.
  - rewrite length_map, length_combine, E. apply Nat.min_id.
  - apply List.Forall_forall. intros row Hin.
    apply in_map_iff in Hin as [q [<- _]]. apply length_map.
Qed.

(** ** The fixed-step path writes the satellite

    For contrast with the adaptive path: one forward-Euler step of ten
    seconds moves the stored position of the low-orbit satellite. *)
Lemma update_satellite_state_writes :
  position (heap (snd (update_satellite_state Demo.MU_EARTH Demo.G0 Demo.ISP
                         1%nat 10 Demo.world)) 1%nat)
  = [0 * 10 + 7000000; 7546 * 10 + 0; 0 * 10 + 0].
Proof. reflexivity. Qed.

(** ** The model at work on the scene *)

Local Abbreviation demo_rhs := (rhs_of Demo.MU_EARTH Demo.R_EARTH Demo.J2 Demo.SA
                                   Demo.G0 Demo.ISP Demo.C_D).
Local Abbreviation demo_get_trajectory_ODE :=
  (get_trajectory_ODE Demo.MU_EARTH Demo.R_EARTH Demo.J2 Demo.SA
                      Demo.G0 Demo.ISP Demo.C_D euler_solve_ivp).
Local Abbreviation demo_propagate :=
  (propagate Demo.MU_EARTH Demo.R_EARTH Demo.J2 Demo.SA
             Demo.G0 Demo.ISP Demo.C_D euler_solve_ivp).
Local Abbreviation demo_run :=
  (run Demo.MU_EARTH Demo.R_EARTH Demo.J2 Demo.SA
       Demo.G0 Demo.ISP Demo.C_D euler_solve_ivp).

Lemma demo_times_within (tf : Z) (ts : list R) :
  times tf = Ok ts -> Forall (within_span (span tf)) ts.
Proof.
  intros H. pose proof (times_spec tf) as Hs. rewrite H in Hs.
  destruct Hs as (_ & _ & _ & _ & Hw). exact Hw.
Qed.

Lemma demo_times_1 : exists ts, times 1 = Ok ts.
Proof. eexists. reflexivity. Qed.

Lemma norm_cons_nonzero (x : R) (v : vec) : x <> 0 -> norm (x :: v) <> 0.
Proof.
  intros Hx. unfold norm; simpl.
  pose proof (sumsq_nonneg v) as Hv.
  assert (0 < x * x + sumsq v) by nra.
  pose proof (sqrt_lt_R0 _ H). lra.
Qed.

Lemma const_of_RHO_nonzero (MU_EARTH R_EARTH J2 SA G0 ISP : R) (s : Satellite) :
  norm (position s) <> 0 -> mass s <> 0 ->
  Const.RHO (const_of MU_EARTH R_EARTH J2 SA G0 ISP s) <> 0.
Proof.
  intros Hr Hm. unfold const_of, r0_of. cbn [Const.RHO]. unfold Rdiv.
  apply Rmult_integral_contrapositive_currified; [exact Hm|].
  apply Rinv_neq_0_compat. apply pow_nonzero. exact Hr.
Qed.

Lemma demo_leo_norm : norm (position Demo.leo) <> 0.
Proof. apply norm_cons_nonzero. lra. Qed.

Lemma demo_leo_mass : mass Demo.leo <> 0.
Proof. simpl. lra. Qed.

Lemma demo_near_origin_norm : norm (position Demo.near_origin) <> 0.
Proof. apply norm_cons_nonzero. lra. Qed.

Lemma demo_near_origin_mass : mass Demo.near_origin <> 0.
Proof. simpl. lra. Qed.

(** A satellite of nonzero mass with three-component position and
    velocity, not at the centre, is propagated by the small solver over
    one orbit, however small its position norm. *)
Lemma demo_propagate_ok (s : Satellite) (u : ControlFunction) :
  norm (position s) <> 0 -> mass s <> 0 ->
  length (position s) = 3%nat -> length (velocity s) = 3%nat ->
  length (u 0) = 3%nat ->
  exists ts sol,
    times 1 = Ok ts /\
    euler_solve_ivp (demo_rhs s 1%Z u) (span 1) (y0_of Demo.MU_EARTH s) ts 0.001
      = Ok sol /\
    sol_success sol = true /\
    sol_y sol <> [] /\
    demo_propagate s 1%Z u
      = Ok (mmul (slice 0 3 (sol_y sol)) (r0_of s)).
Proof.
  intros Hr Hm Hp Hv Hu.
  destruct demo_times_1 as [ts Hts].
  pose proof (y0_of_length Demo.MU_EARTH s Hp Hv) as Hy.
  destruct (satellite_dynamics_returns Demo.R_EARTH Demo.C_D 0 (IZR 1) u
              (const_of Demo.MU_EARTH Demo.R_EARTH Demo.J2 Demo.SA Demo.G0 Demo.ISP s)
              _ Hy Hu (const_of_RHO_nonzero _ _ _ _ _ _ s Hr Hm)) as [k [Hk Lk]].
  eexists ts, _. split; [exact Hts|].
  assert (E : euler_solve_ivp (demo_rhs s 1%Z u) (span 1) (y0_of Demo.MU_EARTH s) ts 0.001
              = Ok (mkOdeResult
                      (map (fun p => map (fun t => fst p + (t - fst (span 1)) * snd p) ts)
                           (combine (y0_of Demo.MU_EARTH s) k)) true)).
  { apply euler_solve_ivp_ok.
    - apply demo_times_within. exact Hts.
    - exact Hk.
    - congruence.
    - unfold span; simpl. lra. }
  assert (Hrows : map (fun p => map (fun t => fst p + (t - fst (span 1)) * snd p) ts)
                      (combine (y0_of Demo.MU_EARTH s) k) <> []).
  { intros H0. apply (f_equal (@length (list R))) in H0.
    rewrite length_map, length_combine, Hy, Lk in H0. discriminate H0. }
  split; [exact E|]. split; [reflexivity|]. split; [exact Hrows|].
  rewrite propagate_nonzero_mass by exact Hm.
  rewrite Hts. cbn [rbind]. rewrite E. cbn [rbind sol_y].
  rewrite rows_0_3_rows by exact Hrows. reflexivity.
Qed.

Lemma demo_propagate_flat (u : ControlFunction) :
  demo_propagate Demo.flat 1%Z u = Raise IndexError.
Proof.
  destruct demo_times_1 as [ts Hts].
  rewrite propagate_nonzero_mass by (simpl; lra).
  rewrite Hts. cbn [rbind].
  rewrite (euler_solve_ivp_raise _ _ _ ts 0.001 IndexError).
  - reflexivity.
  - apply demo_times_within. exact Hts.
  - unfold rhs_of. apply satellite_dynamics_short.
    unfold y0_of, vdiv. simpl. lia.
Qed.

Lemma demo_unit_state_returns (u : ControlFunction) (c : Const.t) :
  length (u 0) = 3%nat -> Const.RHO c <> 0 ->
  satellite_dynamics Demo.R_EARTH Demo.C_D 0 [1; 0; 0; 0; 1; 0; 1] u 1 c
  = Ok (scale 1 ([0; 1; 0]
                 ++ zip_add (zip_add (gravity_j2 c 1 0 0) (vdiv (u 0) 1))
                            (drag_of Demo.C_D c 1 0 1 0)
                 ++ [- norm [] / (Const.G0 c * Const.ISP c)])).
Proof.
  intros Hu Hrho.
  apply satellite_dynamics_7_3; [reflexivity| |exact Hrho].
  unfold vdiv. rewrite length_map. exact Hu.
Qed.



(** C10, at work: the low-orbit satellite under a constant burn. *)
Lemma normalized_mass_stays_one_witness :
  mass Demo.leo <> 0 /\
  nth_error (y0_of Demo.MU_EARTH Demo.leo) 6 = Some 1 /\
  forall y, integrates (demo_rhs Demo.leo 1%Z Demo.burn)
                       (y0_of Demo.MU_EARTH Demo.leo) y ->
            nth_error y 6 = Some 1.
Proof.
  assert (Hm : mass Demo.leo <> 0) by (simpl; lra).
  split; [exact Hm|].
  destruct (normalized_mass_stays_one Demo.MU_EARTH Demo.R_EARTH Demo.J2 Demo.SA
              Demo.G0 Demo.ISP Demo.C_D Demo.leo 1%Z Demo.burn
              Hm eq_refl eq_refl) as (H1 & _ & _ & H4).
  split; [exact H1|exact H4].
Defined.

(** C4, at work: one orbit of the low-orbit satellite gives 101 samples. *)
Lemma trajectory_sample_count_witness :
  exists pos : matrix,
    demo_get_trajectory_ODE 1%nat 1%Z Demo.coast Demo.world = (Ok pos, Demo.world) /\
    length pos = 3%nat /\
    Forall (fun row => Z.of_nat (length row) = 101%Z) pos.
Proof.
  destruct (demo_propagate_ok Demo.leo Demo.coast demo_leo_norm demo_leo_mass
              eq_refl eq_refl eq_refl)
    as (ts & sol & Hts & Hsol & Hok & _).
  assert (Htf : (1 <= 1)%Z) by lia.
  exact (trajectory_sample_count Demo.MU_EARTH Demo.R_EARTH Demo.J2 Demo.SA
           Demo.G0 Demo.ISP Demo.C_D euler_solve_ivp 1%nat 1%Z Demo.coast
           Demo.world ts sol euler_samples_every_point Htf demo_leo_mass
           eq_refl eq_refl Hts Hsol Hok).
Defined.

(** C4 as stated fails: for zero orbits the integration succeeds, without
    a sample, and no trajectory is returned: taking the position rows
    raises [TypeError]. *)
Lemma zero_orbits_no_trajectory :
  exists (ts : list R) (sol : OdeResult),
    times 0 = Ok ts /\
    euler_solve_ivp (demo_rhs Demo.leo 0%Z Demo.coast) (span 0)
                    (y0_of Demo.MU_EARTH Demo.leo) ts 0.001 = Ok sol /\
    sol_success sol = true /\
    demo_get_trajectory_ODE 1%nat 0%Z Demo.coast Demo.world
    = (Raise TypeError, Demo.world).
Proof.
  assert (Hts : exists ts, times 0 = Ok ts) by (eexists; reflexivity).
  destruct Hts as [ts Hts].
  pose proof (y0_of_length Demo.MU_EARTH Demo.leo eq_refl eq_refl) as Hy.
  destruct (satellite_dynamics_returns Demo.R_EARTH Demo.C_D 0 (IZR 0) Demo.coast
              (const_of Demo.MU_EARTH Demo.R_EARTH Demo.J2 Demo.SA Demo.G0 Demo.ISP
                        Demo.leo)
              _ Hy eq_refl
              (const_of_RHO_nonzero _ _ _ _ _ _ Demo.leo demo_leo_norm demo_leo_mass))
    as [k [Hk Lk]].
  assert (E : euler_solve_ivp (demo_rhs Demo.leo 0%Z Demo.coast) (span 0)
                (y0_of Demo.MU_EARTH Demo.leo) ts 0.001
              = Ok (mkOdeResult [] true)).
  { apply (euler_solve_ivp_zero_span _ _ _ _ _ k).
    - apply demo_times_within. exact Hts.
    - exact Hk.
    - congruence.
    - reflexivity. }
  exists ts, (mkOdeResult [] true).
  split; [exact Hts|]. split; [exact E|]. split; [reflexivity|].
  rewrite get_trajectory_ODE_snapshot.
  change (heap Demo.world 1%nat) with Demo.leo.
  rewrite propagate_nonzero_mass by exact demo_leo_mass.
  rewrite Hts. cbn [rbind]. rewrite E. reflexivity.
Qed.

(** C5, at work: the low-orbit satellite, and its trajectory over one
    orbit. *)
Lemma normalization_round_trip_witness :
  0 < Demo.MU_EARTH /\ norm (position Demo.leo) <> 0 /\ mass Demo.leo <> 0 /\
  vmul (slice 0 3 (y0_of Demo.MU_EARTH Demo.leo)) (norm (position Demo.leo))
    = position Demo.leo /\
  vmul (slice 3 6 (y0_of Demo.MU_EARTH Demo.leo))
       (norm (position Demo.leo)
        / (2 * PI * sqrt (norm (position Demo.leo) ^ 3 / Demo.MU_EARTH)))
    = velocity Demo.leo /\
  exists (pos : matrix) (ts : list R) (sol : OdeResult),
    demo_get_trajectory_ODE 1%nat 1%Z Demo.coast Demo.world = (Ok pos, Demo.world) /\
    times 1 = Ok ts /\
    euler_solve_ivp (demo_rhs Demo.leo 1%Z Demo.coast) (span 1)
                    (y0_of Demo.MU_EARTH Demo.leo) ts 0.001 = Ok sol /\
    forall i j,
      entry pos i j =
      if (i <? 3)%nat
      then option_map (fun x => x * norm (position Demo.leo)) (entry (sol_y sol) i j)
      else None.
Proof.
  assert (Hmu : 0 < Demo.MU_EARTH) by (unfold Demo.MU_EARTH; lra).
  split; [exact Hmu|]. split; [exact demo_leo_norm|]. split; [exact demo_leo_mass|].
  destruct (normalization_round_trip Demo.MU_EARTH Demo.R_EARTH Demo.J2 Demo.SA
              Demo.G0 Demo.ISP Demo.C_D euler_solve_ivp Demo.leo
              Hmu demo_leo_norm demo_leo_mass eq_refl eq_refl) as (Hp & Hv & Ht).
  split; [exact Hp|]. split; [exact Hv|].
  destruct (demo_propagate_ok Demo.leo Demo.coast demo_leo_norm demo_leo_mass
              eq_refl eq_refl eq_refl)
    as (ts0 & sol0 & _ & _ & _ & _ & Hrun).
  assert (Hpos : demo_get_trajectory_ODE 1%nat 1%Z Demo.coast Demo.world
                 = (Ok (mmul (slice 0 3 (sol_y sol0)) (r0_of Demo.leo)), Demo.world)).
  { rewrite get_trajectory_ODE_snapshot.
    change (heap Demo.world 1%nat) with Demo.leo. rewrite Hrun. reflexivity. }
  destruct (Ht 1%nat 1%Z Demo.coast Demo.world _ eq_refl Hpos)
    as (ts & sol & Hts & Hsol & Hentries).
  eexists. exists ts, sol.
  split; [exact Hpos|]. split; [exact Hts|]. split; [exact Hsol|exact Hentries].
Defined.

Lemma demo_leo_propagates :
  exists p, fst (demo_get_trajectory_ODE 1%nat 1%Z Demo.coast Demo.world) = Ok p.
Proof.
  destruct (demo_propagate_ok Demo.leo Demo.coast demo_leo_norm demo_leo_mass
              eq_refl eq_refl eq_refl)
    as (ts & sol & _ & _ & _ & _ & H).
  eexists. rewrite get_trajectory_ODE_snapshot. exact H.
Qed.

Lemma demo_flat_raises :
  fst (demo_get_trajectory_ODE 0%nat 1%Z Demo.coast Demo.world) = Raise IndexError.
Proof. rewrite get_trajectory_ODE_snapshot. apply demo_propagate_flat. Qed.

(** C7, at work: the low-orbit satellite first, then the satellite whose
    position has two components, then the one near the centre. *)
Lemma run_aborts_at_first_failure_witness :
  demo_run [1%nat; 0%nat; 2%nat] Demo.controller 1%Z Demo.world
  = (Raise IndexError, Demo.world).
Proof.
  apply (run_aborts_at_first_failure Demo.MU_EARTH Demo.R_EARTH Demo.J2 Demo.SA
           Demo.G0 Demo.ISP Demo.C_D euler_solve_ivp
           [1%nat] [2%nat] 0%nat Demo.controller 1%Z Demo.world IndexError).
  - constructor; [exact demo_leo_propagates|constructor].
  - exact demo_flat_raises.
Defined.

(** C7 as stated fails: the first satellite's propagation raises, the
    second one's would return, and [run] ends with the exception and
    leaves [sim_data] empty: no trajectory and no report for either. *)
Lemma run_failure_not_satellite_scoped :
  fst (demo_get_trajectory_ODE 0%nat 1%Z Demo.coast Demo.world) = Raise IndexError /\
  (exists p, fst (demo_get_trajectory_ODE 1%nat 1%Z Demo.coast Demo.world) = Ok p) /\
  demo_run [0%nat; 1%nat] Demo.controller 1%Z Demo.world
    = (Raise IndexError, Demo.world) /\
  sim_data (snd (demo_run [0%nat; 1%nat] Demo.controller 1%Z Demo.world)) = ∅.
Proof.
  assert (H : demo_run [0%nat; 1%nat] Demo.controller 1%Z Demo.world
              = (Raise IndexError, Demo.world)).
  { rewrite run_collect. cbn [collect Demo.world heap Demo.controller get_u_func].
    rewrite demo_propagate_flat. reflexivity. }
  split; [exact demo_flat_raises|]. split; [exact demo_leo_propagates|].
  split; [exact H|]. rewrite H. reflexivity.
Qed.

Lemma norm_near_origin : norm (position (heap Demo.world 2%nat)) = 0.001.
Proof.
  unfold norm; simpl.
  replace (0.001 * 0.001 + (0 * 0 + (0 * 0 + 0))) with (0.001 * 0.001) by ring.
  apply sqrt_square. lra.
Qed.

(** C8, at work: the satellite a millimetre from the centre, one orbit. *)
Lemma position_norm_not_checked_witness :
  norm (position (heap Demo.world 2%nat)) <> 0 /\
  mass (heap Demo.world 2%nat) <> 0 /\
  exists ts : list R,
    times 1 = Ok ts /\
    match euler_solve_ivp (demo_rhs (heap Demo.world 2%nat) 1%Z Demo.coast) (span 1)
                          (y0_of Demo.MU_EARTH (heap Demo.world 2%nat)) ts 0.001 with
    | Raise e =>
        demo_get_trajectory_ODE 2%nat 1%Z Demo.coast Demo.world = (Raise e, Demo.world)
    | Ok sol =>
        match sol_y sol with
        | [] => demo_get_trajectory_ODE 2%nat 1%Z Demo.coast Demo.world
                = (Raise TypeError, Demo.world)
        | _ :: _ => exists pos : matrix,
                      demo_get_trajectory_ODE 2%nat 1%Z Demo.coast Demo.world
                      = (Ok pos, Demo.world)
        end
    end.
Proof.
  assert (Htf : (0 <= 1)%Z) by lia.
  split; [exact demo_near_origin_norm|]. split; [exact demo_near_origin_mass|].
  exact (position_norm_not_checked Demo.MU_EARTH Demo.R_EARTH Demo.J2
           Demo.SA Demo.G0 Demo.ISP Demo.C_D euler_solve_ivp
           2%nat 1%Z Demo.coast Demo.world
           demo_near_origin_norm demo_near_origin_mass Htf).
Defined.

(** C8 as stated fails: the satellite a millimetre from the centre has a
    position norm near zero, nothing is reported, and its propagation
    returns a trajectory. *)
Lemma near_zero_position_norm_propagates :
  norm (position (heap Demo.world 2%nat)) = 0.001 /\
  exists pos : matrix,
    demo_get_trajectory_ODE 2%nat 1%Z Demo.coast Demo.world = (Ok pos, Demo.world).
Proof.
  split; [exact norm_near_origin|].
  destruct (demo_propagate_ok Demo.near_origin Demo.coast
              demo_near_origin_norm demo_near_origin_mass eq_refl eq_refl eq_refl)
    as (ts & sol & _ & _ & _ & _ & H).
  eexists. rewrite get_trajectory_ODE_snapshot.
  change (heap Demo.world 2%nat) with Demo.near_origin. rewrite H. reflexivity.
Qed.

(** C3 as stated fails: [tf = 0] is below 1, its sample points are the
    one point [0], and that point lies within the span [[0, 0]]. *)
Lemma zero_orbits_sample_within_span :
  (0 < 1)%Z /\
  exists t : R,
    times 0 = Ok [t] /\ t = 0 /\ span 0 = (0, 0) /\ within_span (span 0) t.
Proof.
  split; [lia|].
  eexists. split; [reflexivity|].
  assert (H0 : INR 0 * ((1 - 0) / (IZR (resolution 0) - 1)) + 0 = 0)
    by (simpl INR; rewrite Rmult_0_l, Rplus_0_r; reflexivity).
  split; [exact H0|]. split; [reflexivity|].
  rewrite H0. unfold within_span, span; simpl.
  rewrite Rmin_left, Rmax_right by lra. lra.
Qed.

(** ** The further properties at work on the scene *)

Lemma py_int_nonneg (x : R) : 0 <= x -> (0 <= py_int x)%Z.
Proof.
  intros H. unfold py_int. destruct (Rle_dec 0 x) as [_|N]; [|contradiction].
  apply Zfloor_lub. exact H.
Qed.

Lemma demo_world_three_vectors : three_vectors (heap Demo.world 1%nat).
Proof. repeat split; reflexivity. Qed.

Lemma demo_near_origin_propagates :
  exists p, fst (demo_get_trajectory_ODE 2%nat 1%Z Demo.coast Demo.world) = Ok p.
Proof.
  destruct (demo_propagate_ok Demo.near_origin Demo.coast
              demo_near_origin_norm demo_near_origin_mass eq_refl eq_refl eq_refl)
    as (ts & sol & _ & _ & _ & _ & H).
  eexists. rewrite get_trajectory_ODE_snapshot. exact H.
Qed.

(** X2, at work: a ten-component state carrying the thrust [[3; 4; 0]]. *)
Lemma satellite_dynamics_rates_of_state_witness :
  exists ydot : vec,
    satellite_dynamics Demo.R_EARTH Demo.C_D 0 Demo.state10 Demo.burn 1
                       Demo.unit_consts = Ok ydot /\
    slice 0 3 ydot = scale 1 [0; 1; 0] /\
    nth_error ydot 6 = Some (1 * (- norm [3; 4; 0] / (1 * 1))).
Proof.
  assert (H : exists ydot,
             satellite_dynamics Demo.R_EARTH Demo.C_D 0 Demo.state10 Demo.burn 1
                                Demo.unit_consts = Ok ydot).
  { unfold Demo.state10.
    rewrite satellite_dynamics_7_more, truediv_nonzero by (simpl; lra).
    eexists. reflexivity. }
  destruct H as [ydot H]. exists ydot. split; [exact H|].
  exact (satellite_dynamics_rates_of_state Demo.R_EARTH Demo.C_D 0 1 Demo.burn
           Demo.unit_consts Demo.state10 ydot H).
Defined.

(** X4, at work: unit position along x, unit velocity along y. *)
Lemma polar_torque_from_thrust_and_drag_witness :
  exists d0 d1 d2 d3 d4 d5 d6 : R,
    satellite_dynamics Demo.R_EARTH Demo.C_D 0 [1; 0; 0; 0; 1; 0; 1] Demo.burn 1
                       Demo.unit_consts = Ok [d0; d1; d2; d3; d4; d5; d6] /\
    1 * d4 - 0 * d3
    = 1 * ((1 * 0 - 0 * 1) / 1
           + - 1 / 2 * Demo.C_D * 1 * (1 / 1)
             * (get_atmo_density Demo.R_EARTH [1; 0; 0] 1 / 1) * norm [0; 1; 0]
             * (1 * 1 - 0 * 0)).
Proof.
  assert (H : satellite_dynamics Demo.R_EARTH Demo.C_D 0 [1; 0; 0; 0; 1; 0; 1]
                                 Demo.burn 1 Demo.unit_consts = Ok _)
    by (apply demo_unit_state_returns; [reflexivity|simpl; lra]).
  do 7 eexists. split; [exact H|].
  exact (polar_torque_from_thrust_and_drag Demo.R_EARTH Demo.C_D 0 1 Demo.burn
           Demo.unit_consts 1 0 0 0 1 0 1 1 0 0 _ _ _ _ _ _ _ eq_refl H).
Defined.

(** X5, at work: the same state, with and without reference area. *)
Lemma drag_opposes_velocity_witness :
  exists d0 d1 d2 d3 d4 d5 d6 e0 e1 e2 e3 e4 e5 e6 : R,
    satellite_dynamics Demo.R_EARTH Demo.C_D 0 [1; 0; 0; 0; 1; 0; 1] Demo.burn 1
                       Demo.unit_consts = Ok [d0; d1; d2; d3; d4; d5; d6] /\
    satellite_dynamics Demo.R_EARTH Demo.C_D 0 [1; 0; 0; 0; 1; 0; 1] Demo.burn 1
                       (Const.Build 1 1 0 0 1 1 1 1)
    = Ok [e0; e1; e2; e3; e4; e5; e6] /\
    exists k : R,
      k <= 0 /\ d3 - e3 = k * 0 /\ d4 - e4 = k * 1 /\ d5 - e5 = k * 0 /\
      0 * (d3 - e3) + 1 * (d4 - e4) + 0 * (d5 - e5) <= 0.
Proof.
  assert (Hcd : 0 <= Demo.C_D) by (unfold Demo.C_D; lra).
  assert (H : satellite_dynamics Demo.R_EARTH Demo.C_D 0 [1; 0; 0; 0; 1; 0; 1]
                                 Demo.burn 1 Demo.unit_consts = Ok _)
    by (apply demo_unit_state_returns; [reflexivity|simpl; lra]).
  assert (H0 : satellite_dynamics Demo.R_EARTH Demo.C_D 0 [1; 0; 0; 0; 1; 0; 1]
                                  Demo.burn 1 (Const.Build 1 1 0 0 1 1 1 1) = Ok _)
    by (apply demo_unit_state_returns; [reflexivity|simpl; lra]).
  do 14 eexists. split; [exact H|]. split; [exact H0|].
  eapply (drag_opposes_velocity Demo.R_EARTH Demo.C_D 0 1 Demo.burn
            Demo.unit_consts 1 0 0 0 1 0 1 1 0 0);
    try reflexivity; try exact Hcd; try exact H; try exact H0; simpl; lra.
Defined.

(** X6, at work: one newton along every axis. *)
Lemma satellite_dynamics_scalar_thrust_witness :
  satellite_dynamics Demo.R_EARTH Demo.C_D 0 [1; 0; 0; 0; 1; 0; 1] (fun _ => [1]) 1
                     Demo.unit_consts
  = satellite_dynamics Demo.R_EARTH Demo.C_D 0 [1; 0; 0; 0; 1; 0; 1]
                       (fun _ => [1; 1; 1]) 1 Demo.unit_consts.
Proof.
  apply (satellite_dynamics_scalar_thrust Demo.R_EARTH Demo.C_D 0 1 1
           (fun _ => [1]) (fun _ => [1; 1; 1])); reflexivity.
Defined.

(** X7, at work: the low-orbit satellite. *)
Lemma normalized_position_unit_norm_witness :
  norm (slice 0 3 (y0_of Demo.MU_EARTH Demo.leo)) = 1.
Proof.
  apply (normalized_position_unit_norm Demo.MU_EARTH Demo.leo);
    [apply norm_cons_nonzero; lra|reflexivity].
Defined.

(** X8, at work: the low-orbit satellite. *)
Lemma normalized_mu_is_four_pi_squared_witness :
  Const.MU (const_of Demo.MU_EARTH Demo.R_EARTH Demo.J2 Demo.SA Demo.G0 Demo.ISP
                     Demo.leo) = 4 * PI ^ 2.
Proof.
  apply (normalized_mu_is_four_pi_squared Demo.MU_EARTH Demo.R_EARTH Demo.J2
           Demo.SA Demo.G0 Demo.ISP Demo.leo).
  - unfold Demo.MU_EARTH; lra.
  - apply norm_cons_nonzero; lra.
Defined.

(** X9, at work: two orbits. *)
Lemma samples_end_at_one_witness :
  exists ts : list R,
    times 2 = Ok ts /\ List.hd 0 ts = 0 /\ List.last ts 0 = 1 /\
    Forall (fun t => t < snd (span 2)) ts.
Proof.
  destruct (samples_end_at_one 2 ltac:(lia)) as (ts & H1 & H2 & H3 & H4).
  exists ts. repeat split; try assumption. apply H4. lia.
Defined.

(** X10, at work: the first two sample points of one orbit. *)
Lemma samples_equally_spaced_witness :
  exists (ts : list R) (t t' : R),
    times 1 = Ok ts /\ nth_error ts 0 = Some t /\ nth_error ts 1 = Some t' /\
    t' - t = 1 / (100 * 1) /\ t < t'.
Proof.
  do 3 eexists. split; [reflexivity|]. split; [reflexivity|].
  split; [reflexivity|].
  apply (samples_equally_spaced 1 _ 0%nat _ _ ltac:(lia) eq_refl eq_refl eq_refl).
Defined.

(** X11, at work: the low-orbit satellite and the one near the centre;
    no satellite of the run has id 0. *)
Lemma run_builds_dictionary_witness :
  exists d : gmap Z matrix,
    demo_run [1%nat; 2%nat] Demo.controller 1%Z Demo.world
    = (Ok d, mkWorld (heap Demo.world) d) /\
    d !! 0%Z = None.
Proof.
  destruct (run_builds_dictionary Demo.MU_EARTH Demo.R_EARTH Demo.J2 Demo.SA
              Demo.G0 Demo.ISP Demo.C_D euler_solve_ivp
              [1%nat; 2%nat] Demo.controller 1%Z Demo.world)
    as (d & Hrun & Hkeys & _).
  - constructor; [exact demo_leo_propagates|].
    constructor; [exact demo_near_origin_propagates|constructor].
  - exists d. split; [exact Hrun|]. apply Hkeys.
    intros l [<-|[<-|[]]]; discriminate.
Defined.

(** X14, at work: the solver that gives up at once. *)
Lemma run_stores_unsuccessful_result_witness :
  exists p : matrix,
    run Demo.MU_EARTH Demo.R_EARTH Demo.J2 Demo.SA Demo.G0 Demo.ISP Demo.C_D
        stalled_solve_ivp [1%nat] Demo.controller 1%Z Demo.world
    = (Ok {[ 1%Z := p ]}, mkWorld (heap Demo.world) {[ 1%Z := p ]}).
Proof.
  destruct demo_times_1 as [ts Hts].
  eexists.
  apply (run_stores_unsuccessful_result Demo.MU_EARTH Demo.R_EARTH Demo.J2 Demo.SA
           Demo.G0 Demo.ISP Demo.C_D stalled_solve_ivp 1%nat Demo.controller 1%Z
           Demo.world ts _ demo_leo_mass Hts eq_refl);
    [discriminate|reflexivity].
Defined.

(** X15, at work: the low-orbit satellite, a step of ten seconds. *)
Lemma update_satellite_state_step_witness :
  exists w' : World,
    update_satellite_state Demo.MU_EARTH Demo.G0 Demo.ISP 1%nat 10 Demo.world
    = (Ok tt, w') /\
    three_vectors (heap w' 1%nat) /\
    heap w' 0%nat = heap Demo.world 0%nat.
Proof.
  destruct (update_satellite_state_step Demo.MU_EARTH Demo.G0 Demo.ISP 1%nat 10
              Demo.world demo_world_three_vectors)
    as (w' & H & _ & _ & Hwf & Hf & _).
  exists w'. split; [exact H|]. split; [exact Hwf|]. apply Hf. discriminate.
Defined.

(** X17, at work: the satellite under thrust. *)
Lemma update_satellite_state_mass_grows_witness :
  exists w' : World,
    update_satellite_state Demo.MU_EARTH Demo.G0 Demo.ISP 0%nat 10 Demo.thrust_world
    = (Ok tt, w') /\
    mass (heap Demo.thrust_world 0%nat) < mass (heap w' 0%nat).
Proof.
  destruct (update_satellite_state_three_vectors Demo.MU_EARTH Demo.G0 Demo.ISP
              0%nat 10 Demo.thrust_world)
    as (w' & H & _); [repeat split; reflexivity|].
  exists w'. split; [exact H|].
  apply (update_satellite_state_mass_grows Demo.MU_EARTH Demo.G0 Demo.ISP 0%nat 10
           Demo.thrust_world w').
  - unfold Demo.G0; lra.
  - unfold Demo.ISP; lra.
  - lra.
  - change (norm [0; 1; 0] <> 0). unfold norm; simpl.
    replace (0 * 0 + (1 * 1 + (0 * 0 + 0))) with 1 by ring.
    rewrite sqrt_1. lra.
  - exact H.
Defined.

(** X18, at work: twenty-five seconds in steps of ten. *)
Lemma get_trajectory_rows_witness :
  exists (rows : matrix) (w' : World) (out : list printed),
    get_trajectory Demo.MU_EARTH Demo.R_EARTH Demo.G0 Demo.ISP 1%nat 10 25 Demo.world
    = (Returned rows, w', out) /\
    heap w' 0%nat = heap Demo.world 0%nat.
Proof.
  destruct (get_trajectory_rows Demo.MU_EARTH Demo.R_EARTH Demo.G0 Demo.ISP
              1%nat 10 25 Demo.world)
    as (w' & out & H & _ & Hf & _).
  - lra.
  - apply py_int_nonneg. lra.
  - exact demo_world_three_vectors.
  - eexists. exists w', out. split; [exact H|]. apply Hf. discriminate.
Defined.

(** X19, at work: twenty-five seconds in steps of ten. *)
Lemma get_trajectory_printed_witness :
  exists (rows : matrix) (w' : World) (x : R),
    get_trajectory Demo.MU_EARTH Demo.R_EARTH Demo.G0 Demo.ISP 1%nat 10 25 Demo.world
    = (Returned rows, w',
       crash_lines Demo.R_EARTH rows ++ [PrintErrorWith 10; PrintNumber x]).
Proof.
  destruct (get_trajectory_printed Demo.MU_EARTH Demo.R_EARTH Demo.G0 Demo.ISP
              1%nat 10 25 Demo.world)
    as (rows & w' & H).
  - lra.
  - apply py_int_nonneg. lra.
  - exact demo_world_three_vectors.
  - exists rows, w'. eexists. exact H.
Defined.

(** X20, at work: five seconds in steps of ten. *)
Lemma get_trajectory_no_step_witness :
  exists x : R,
    get_trajectory Demo.MU_EARTH Demo.R_EARTH Demo.G0 Demo.ISP 1%nat 10 5 Demo.world
    = (Returned [], Demo.world, [PrintErrorWith 10; PrintNumber x]) /\ x = 0.
Proof.
  apply (get_trajectory_no_step Demo.MU_EARTH Demo.R_EARTH Demo.G0 Demo.ISP
           1%nat 10 5 Demo.world); lra.
Defined.

(** X21, at work: minus thirty seconds in steps of ten. *)
Lemma get_trajectory_negative_count_witness :
  get_trajectory Demo.MU_EARTH Demo.R_EARTH Demo.G0 Demo.ISP 1%nat 10 (-30) Demo.world
  = (Raised ValueError, Demo.world, []).
Proof.
  apply (get_trajectory_negative_count Demo.MU_EARTH Demo.R_EARTH Demo.G0 Demo.ISP
           1%nat 10 (-30) Demo.world); lra.
Defined.
